(** * whisper-transcriber: the Streamlit transcription application [app.py]

    A shallow embedding of [app.py]: the environment probe [check_ffmpeg],
    the cached model loader [load_whisper_model], the per-file loop of
    [main] with its temporary files, the timestamp formatting of the
    segments and the combined export.

    Conventions of the embedding.
    - A Python [float] is modelled by the rational number it denotes ([Q]).
    - The process environment, the resource cache and the file system are
      finite maps ([gmap]).
    - A call that may raise returns an [Outcome]; the external capabilities
      (Whisper, the temporary-file layer, subprocesses) are parameters of
      the sections that use them. *)

From stdpp Require Import gmap strings list fin_maps.
From Stdlib Require Import ZArith QArith Ascii String Lia.

Local Open Scope string_scope.
Local Open Scope list_scope.
Local Open Scope Z_scope.

(** ** Exceptions and fallible results *)

(** A Python exception; [str(e)] is its message. *)
Inductive Exn : Type := Exception (msg : string).

Definition str_exn (e : Exn) : string := let 'Exception m := e in m.

Inductive Outcome (A : Type) : Type :=
| Ok (a : A)
| Raise (e : Exn).
Arguments Ok {A} a.
Arguments Raise {A} e.

Definition bind {A B} (m : Outcome A) (k : A -> Outcome B) : Outcome B :=
  match m with
  | Ok a => k a
  | Raise e => Raise e
  end.

Notation "x <- m ;; k" := (bind m (fun x => k))
  (at level 100, m at next level, right associativity, only parsing).

(** The line feed of the f-strings. *)
Definition LF : string := String (ascii_of_nat 10) EmptyString.

(** ** Timestamps: [datetime.utcfromtimestamp(t).strftime('%H:%M:%S.%f')[:-3]] *)

Module Timestamp.

(** Rounding of a rational to the nearest integer, ties to even: the mode
    in which [utcfromtimestamp] converts a float to microseconds. *)
Definition round_half_even (q : Q) : Z :=
  let n := Qnum q in
  let d := Z.pos (Qden q) in
  let f := n / d in
  let r := n mod d in
  match 2 * r ?= d with
  | Lt => f
  | Gt => f + 1
  | Eq => if Z.even f then f else f + 1
  end.

(** A naive UTC [datetime]. The format used by [main] prints the time of
    day only, so the calendar date is kept as the day number since the
    epoch. *)
Record datetime : Type := {
  day_number : Z;
  hour : Z;
  minute : Z;
  second : Z;
  microsecond : Z
}.

(** Seconds since the epoch of 0001-01-01T00:00:00 and of
    10000-01-01T00:00:00: a [datetime] has a year between 1 and 9999. *)
Definition MIN_SECONDS : Z := -62135596800.
Definition MAX_SECONDS : Z := 253402300800.

Definition out_of_range : Exn := Exception "year is out of range".

(** [datetime.utcfromtimestamp]: the timestamp is rounded to microseconds
    and split into the calendar fields of the proleptic Gregorian calendar
    in UTC; a year outside 1..9999 raises [ValueError]. *)
Definition microseconds (t : Q) : Z := round_half_even (t * 1000000).

Definition utcfromtimestamp (t : Q) : Outcome datetime :=
  let us := microseconds t in
  let secs := us / 1000000 in
  if (secs <? MIN_SECONDS) || (MAX_SECONDS <=? secs) then Raise out_of_range
  else
    let sod := secs mod 86400 in
    Ok {| day_number := secs / 86400;
          hour := sod / 3600;
          minute := (sod mod 3600) / 60;
          second := sod mod 60;
          microsecond := us mod 1000000 |}.

Definition digit (z : Z) : ascii := ascii_of_nat (48 + Z.to_nat (z mod 10)).

(** [w] decimal digits of [z], zero padded ([%02d], [%06d]). *)
Fixpoint zpad (w : nat) (z : Z) : string :=
  match w with
  | O => EmptyString
  | S w' => zpad w' (z / 10) +:+ String (digit z) EmptyString
  end.

(** The directives of [strftime] that [main] uses. *)
Definition directive (dt : datetime) (c : ascii) : string :=
  if Ascii.eqb c "H" then zpad 2 (hour dt)
  else if Ascii.eqb c "M" then zpad 2 (minute dt)
  else if Ascii.eqb c "S" then zpad 2 (second dt)
  else if Ascii.eqb c "f" then zpad 6 (microsecond dt)
  else if Ascii.eqb c "%" then "%"
  else String "%" (String c EmptyString).

Fixpoint strftime (dt : datetime) (fmt : string) : string :=
  match fmt with
  | EmptyString => EmptyString
  | String c rest =>
      if Ascii.eqb c "%" then
        match rest with
        | EmptyString => "%"
        | String d rest' => directive dt d +:+ strftime dt rest'
        end
      else String c (strftime dt rest)
  end.

(** The slice [s[:-n]]. *)
Definition drop_last (n : nat) (s : string) : string :=
  substring 0 (String.length s - n) s.

(** [str(datetime.utcfromtimestamp(t).strftime('%H:%M:%S.%f'))[:-3]] *)
Definition format_time (t : Q) : Outcome string :=
  dt <- utcfromtimestamp t ;;
  Ok (drop_last 3 (strftime dt "%H:%M:%S.%f")).

End Timestamp.

(** ** The environment probe [check_ffmpeg] *)

Module Probe.

(** What the probe observes of the host: [subprocess.run([exe, '-version'])]
    either raises (the executable cannot be started) or completes with a
    return code; [os.path.exists] answers for a path. *)
Record Host : Type := {
  run_version : string -> Outcome Z;
  path_exists : string -> bool
}.

Definition chocolatey_path : string :=
  "C:\ProgramData\chocolatey\bin\ffmpeg.exe".
Definition chocolatey_bin : string := "C:\ProgramData\chocolatey\bin;".

(** [check_ffmpeg] on the process environment [os.environ]; the Streamlit
    messages are display only and left out. The result is the returned
    boolean and the environment afterwards. *)
Definition check_ffmpeg (H : Host) (environ : gmap string string)
  : bool * gmap string string :=
  match run_version H "ffmpeg" with
  | Raise _ => (false, environ)                     (* outer [except] *)
  | Ok returncode =>
      if returncode =? 0 then (true, environ)
      else if path_exists H chocolatey_path then
        match run_version H chocolatey_path with
        | Raise _ => (false, environ)               (* inner [except: pass] *)
        | Ok returncode' =>
            if returncode' =? 0 then
              match environ !! "PATH" with
              | Some path =>
                  (true, <["PATH" := chocolatey_bin +:+ path]> environ)
              | None => (false, environ)            (* [KeyError], passed *)
              end
            else (false, environ)
        end
      else (false, environ)
  end.

(** The outcome in which the claim about [PATH] places the update: the
    primary command ran and returned a non-zero code, the Chocolatey
    executable exists and its version query returned zero. *)
Definition fallback_succeeds (H : Host) : Prop :=
  (exists rc, run_version H "ffmpeg" = Ok rc /\ rc <> 0) /\
  path_exists H chocolatey_path = true /\
  run_version H chocolatey_path = Ok 0.

(** A Windows host where [ffmpeg] on the search path is broken and the
    Chocolatey install works. *)
Definition host_chocolatey : Host := {|
  run_version := fun exe => if String.eqb exe "ffmpeg" then Ok 1 else Ok 0;
  path_exists := fun _ => true
|}.

Definition environ_example : gmap string string :=
  {[ "PATH" := "C:\Windows" ]}.

End Probe.

(** ** The model provider [load_whisper_model] *)

Module Provider.

(** A loaded model. Two handles are the same object exactly when they come
    from the same load: [handle_id] is the number of that load. *)
Record ModelHandle : Type := {
  handle_id : nat;
  handle_name : string;
  handle_device : string
}.

(** [torch.cuda.is_available()] and the failure, if any, of
    [whisper.load_model(name, device=device)]. *)
Record Runtime : Type := {
  cuda_is_available : bool;
  load_error : string -> string -> option Exn
}.

(** The resource cache of [st.cache_resource] for this function, keyed by
    its argument, and the number of [whisper.load_model] calls made so far
    in the process. *)
Record Cache : Type := {
  entries : gmap string ModelHandle;
  loads : nat
}.

(** The body of [load_whisper_model], run as load number [n]. *)
Definition load_whisper_model_body (R : Runtime) (model_name : string) (n : nat)
  : Outcome ModelHandle :=
  let device := if cuda_is_available R then "cuda" else "cpu" in
  match load_error R model_name device with
  | Some e => Raise e
  | None => Ok {| handle_id := n; handle_name := model_name;
                  handle_device := device |}
  end.

(** [load_whisper_model] under [@st.cache_resource]: a cached entry is
    returned as it is; otherwise the body runs and its result, when it
    returns, is stored. No [ttl] or [max_entries] is given, so entries are
    never evicted. *)
Definition load_whisper_model (R : Runtime) (model_name : string) (c : Cache)
  : Outcome ModelHandle * Cache :=
  match entries c !! model_name with
  | Some h => (Ok h, c)
  | None =>
      match load_whisper_model_body R model_name (loads c) with
      | Ok h => (Ok h, {| entries := <[model_name := h]> (entries c);
                          loads := S (loads c) |})
      | Raise e => (Raise e, {| entries := entries c; loads := S (loads c) |})
      end
  end.

(** The cache after a sequence of calls, whatever they return. *)
Fixpoint calls (R : Runtime) (names : list string) (c : Cache) : Cache :=
  match names with
  | [] => c
  | n :: rest => calls R rest (snd (load_whisper_model R n c))
  end.

Definition get_available_models : list string :=
  ["tiny"; "base"; "small"; "medium"; "large"].

Definition empty_cache : Cache := {| entries := ∅; loads := 0 |}.

Definition runtime_cpu : Runtime :=
  {| cuda_is_available := false; load_error := fun _ _ => None |}.

End Provider.

(** ** The per-file loop of [main] *)

Module Batch.

Import Timestamp.

(** An uploaded file: [uploaded_file.name] and [uploaded_file.getvalue()]. *)
Record UploadedFile : Type := {
  name : string;
  getvalue : string
}.

(** A segment of the transcription: [segment["start"]], [segment["end"]],
    [segment["text"]]. *)
Record Segment : Type := {
  seg_start : Q;
  seg_end : Q;
  seg_text : string
}.

(** What [model.transcribe] returns: [result["text"]], [result["segments"]]. *)
Record WhisperResult : Type := {
  res_text : string;
  res_segments : list Segment
}.

(** The dictionary [file_result]. *)
Record FileResult : Type := {
  filename : string;
  text : string;
  transcribe_time : Q;
  segments : list Segment
}.

(** An entry of [all_timestamps]. *)
Record TimestampEntry : Type := {
  ts_filename : string;
  timestamp_text : string
}.

(** The capabilities the loop calls. [tmp_name] is the name the temporary
    file layer picks for a suffix (or its failure), [write_error] the
    failure, if any, of writing the bytes to the created file, and
    [transcribe] the outcome of [model.transcribe(path, **options)] paired
    with the seconds measured around the call. *)
Record World : Type := {
  tmp_name : gmap string string -> string -> Outcome string;
  write_error : gmap string string -> string -> string -> option Exn;
  transcribe : Provider.ModelHandle -> gmap string string -> string ->
               list (string * string) -> Outcome (Q * WhisperResult)
}.

(** The files on disk (path to content), the two result lists, and the
    per-file errors shown by [st.error] as (file name, [str(e)]). *)
Record State : Type := {
  fs : gmap string string;
  all_results : list FileResult;
  all_timestamps : list TimestampEntry;
  errors : list (string * string)
}.

Definition initial (files_on_disk : gmap string string) : State :=
  {| fs := files_on_disk; all_results := []; all_timestamps := [];
     errors := [] |}.

(** How one iteration of the loop ends: it falls through to the next file,
    or an exception leaves the loop and [main]. *)
Inductive Ctl : Type :=
| Continue (st : State)
| Abort (e : Exn) (st : State).

(** [file_name.split('.')[-1]]: the text after the last dot, the whole name
    when there is none. *)
Fixpoint split_last (acc s : string) : string :=
  match s with
  | EmptyString => acc
  | String c rest =>
      if Ascii.eqb c "." then split_last EmptyString rest
      else split_last (acc +:+ String c EmptyString) rest
  end.

Definition suffix_of (file_name : string) : string :=
  "." +:+ split_last EmptyString file_name.

Definition file_exists_error : Exn := Exception "File exists".

(** The [with tempfile.NamedTemporaryFile(delete=False, suffix=...)] block:
    the file is created exclusively and empty, the bytes are written, and
    the file is closed but kept. A failed write leaves the created file
    behind. The result is the path (or the exception) and the file system
    afterwards. *)
Definition persist (W : World) (disk : gmap string string) (f : UploadedFile)
  : Outcome string * gmap string string :=
  match tmp_name W disk (suffix_of (name f)) with
  | Raise e => (Raise e, disk)
  | Ok temp_filename =>
      match disk !! temp_filename with
      | Some _ => (Raise file_exists_error, disk)
      | None =>
          let created := <[temp_filename := EmptyString]> disk in
          match write_error W created temp_filename (getvalue f) with
          | Some e => (Raise e, created)
          | None => (Ok temp_filename, <[temp_filename := getvalue f]> created)
          end
      end
  end.

(** [options]: the language is passed only when the selection is not the
    empty string. *)
Definition options_of (language_option : string) : list (string * string) :=
  if String.eqb language_option "" then []
  else [("language", language_option)].

(** The f-string [f"[{start_formatted} --> {end_formatted}] {text}\n"]. *)
Definition segment_line (start_formatted end_formatted text : string) : string :=
  "[" +:+ start_formatted +:+ " --> " +:+ end_formatted +:+ "] " +:+ text +:+ LF.

(** The loop over [result["segments"]] that grows [timestamp_text]. *)
Fixpoint format_segments (timestamp_text : string) (segs : list Segment)
  : Outcome string :=
  match segs with
  | [] => Ok timestamp_text
  | segment :: rest =>
      start_formatted <- format_time (seg_start segment) ;;
      end_formatted <- format_time (seg_end segment) ;;
      format_segments
        (timestamp_text +:+
           segment_line start_formatted end_formatted (seg_text segment))
        rest
  end.

Definition set_fs (st : State) (disk : gmap string string) : State :=
  {| fs := disk; all_results := all_results st;
     all_timestamps := all_timestamps st; errors := errors st |}.

Definition append_result (st : State) (r : FileResult) : State :=
  {| fs := fs st; all_results := all_results st ++ [r];
     all_timestamps := all_timestamps st; errors := errors st |}.

Definition append_timestamps (st : State) (t : TimestampEntry) : State :=
  {| fs := fs st; all_results := all_results st;
     all_timestamps := all_timestamps st ++ [t]; errors := errors st |}.

Definition st_error (st : State) (file_name : string) (e : Exn) : State :=
  {| fs := fs st; all_results := all_results st;
     all_timestamps := all_timestamps st;
     errors := errors st ++ [(file_name, str_exn e)] |}.

(** The body of the [try]: the state it reaches and the exception, if any,
    that ended it. [all_results] is extended before the segments are
    formatted. *)
Definition try_body (W : World) (model : Provider.ModelHandle)
    (language_option file_name temp_filename : string) (st : State)
  : State * option Exn :=
  match transcribe W model (fs st) temp_filename (options_of language_option) with
  | Raise e => (st, Some e)
  | Ok (elapsed, result) =>
      let file_result :=
        {| filename := file_name; text := res_text result;
           transcribe_time := elapsed; segments := res_segments result |} in
      let st1 := append_result st file_result in
      match format_segments EmptyString (res_segments result) with
      | Raise e => (st1, Some e)
      | Ok timestamp_text =>
          (append_timestamps st1
             {| ts_filename := file_name; timestamp_text := timestamp_text |},
           None)
      end
  end.

(** The [finally] clause: [if os.path.exists(p): os.unlink(p)]. *)
Definition cleanup (temp_filename : string) (disk : gmap string string)
  : gmap string string :=
  match disk !! temp_filename with
  | Some _ => delete temp_filename disk
  | None => disk
  end.

(** One iteration of [for idx, uploaded_file in enumerate(uploaded_files)];
    the progress display is left out. *)
Definition process_file (W : World) (model : Provider.ModelHandle)
    (language_option : string) (st : State) (uploaded_file : UploadedFile) : Ctl :=
  let file_name := name uploaded_file in
  match persist W (fs st) uploaded_file with
  | (Raise e, disk) => Abort e (set_fs st disk)
  | (Ok temp_filename, disk) =>
      let '(st1, raised) :=
        try_body W model language_option file_name temp_filename (set_fs st disk) in
      let st2 :=
        match raised with
        | Some e => st_error st1 file_name e
        | None => st1
        end in
      Continue (set_fs st2 (cleanup temp_filename (fs st2)))
  end.

Fixpoint process_files (W : World) (model : Provider.ModelHandle)
    (language_option : string) (uploaded_files : list UploadedFile) (st : State)
  : Ctl :=
  match uploaded_files with
  | [] => Continue st
  | f :: rest =>
      match process_file W model language_option st f with
      | Continue st' => process_files W model language_option rest st'
      | Abort e st' => Abort e st'
      end
  end.

End Batch.

(** ** The combined export of [main] *)

Module Download.

Import Batch.

(** [next((t for t in all_timestamps if t["filename"] == fname), None)] *)
Fixpoint find_timestamps (all_timestamps : list TimestampEntry) (fname : string)
  : option TimestampEntry :=
  match all_timestamps with
  | [] => None
  | t :: rest =>
      if String.eqb (ts_filename t) fname then Some t
      else find_timestamps rest fname
  end.

Definition header (fname : string) : string :=
  "=== " +:+ fname +:+ " ===" +:+ LF +:+ LF.

(** The loop [for result in all_results] that grows [combined_text] and
    [combined_timestamp_text]. *)
Fixpoint combine (all_timestamps : list TimestampEntry)
    (results : list FileResult) (combined_text combined_timestamp_text : string)
  : string * string :=
  match results with
  | [] => (combined_text, combined_timestamp_text)
  | result :: rest =>
      let combined_text :=
        (combined_text +:+ header (filename result))
        +:+ (text result +:+ LF +:+ LF) in
      let combined_timestamp_text :=
        match find_timestamps all_timestamps (filename result) with
        | Some timestamp_data =>
            (combined_timestamp_text +:+ header (filename result))
            +:+ (timestamp_text timestamp_data +:+ LF +:+ LF)
        | None => combined_timestamp_text
        end in
      combine all_timestamps rest combined_text combined_timestamp_text
  end.

(** The two payloads of the combined download, offered when there is more
    than one result. *)
Definition combined_export (all_results : list FileResult)
    (all_timestamps : list TimestampEntry) : option (string * string) :=
  if (1 <? List.length all_results)%nat
  then Some (combine all_timestamps all_results EmptyString EmptyString)
  else None.

End Download.

(** ** A concrete host for the examples *)

Module Scenario.

Import Batch.

Definition base_handle : Provider.ModelHandle :=
  {| Provider.handle_id := 0; Provider.handle_name := "base";
     Provider.handle_device := "cpu" |}.

Definition hi_segment : Segment :=
  {| seg_start := 3 # 2; seg_end := 13 # 4; seg_text := "hi" |}.

(** A segment that starts in the year 10000 of the calendar formatter. *)
Definition far_segment : Segment :=
  {| seg_start := 253402300800 # 1; seg_end := 253402300801 # 1;
     seg_text := "far" |}.

(** Temporary files are named after the suffix; a payload ["too large"]
    does not fit on the disk; a payload ["corrupt"] cannot be decoded; a
    payload ["far"] yields [far_segment]; any other payload is transcribed
    to itself with the single segment [hi_segment]. *)
Definition world : World := {|
  tmp_name := fun _ suffix => Ok ("/tmp/tmpx" +:+ suffix);
  write_error := fun _ _ content =>
    if String.eqb content "too large"
    then Some (Exception "No space left on device") else None;
  transcribe := fun _ disk path _ =>
    match disk !! path with
    | None => Raise (Exception "No such file or directory")
    | Some content =>
        if String.eqb content "corrupt"
        then Raise (Exception "Invalid data found when processing input")
        else if String.eqb content "far"
        then Ok (1%Q, {| res_text := content; res_segments := [far_segment] |})
        else Ok (1%Q, {| res_text := content; res_segments := [hi_segment] |})
    end
|}.

Definition a_mp3 : UploadedFile := {| name := "a.mp3"; getvalue := "Hello" |}.
Definition b_wav : UploadedFile := {| name := "b.wav"; getvalue := "World" |}.
Definition bad_ogg : UploadedFile := {| name := "bad.ogg"; getvalue := "corrupt" |}.
Definition big_flac : UploadedFile := {| name := "big.flac"; getvalue := "too large" |}.
Definition far_m4a : UploadedFile := {| name := "far.m4a"; getvalue := "far" |}.

End Scenario.

(** ** The elapsed-time reading of a timestamp *)

Module Elapsed.

Import Timestamp Batch.

(** The timestamps the calendar formatter accepts. *)
Definition formattable (t : Q) : bool :=
  let secs := microseconds t / 1000000 in
  (MIN_SECONDS <=? secs) && (secs <? MAX_SECONDS).

Definition formattable_segment (seg : Segment) : bool :=
  formattable (seg_start seg) && formattable (seg_end seg).

(** [HH:MM:SS.mmm] of a number of microseconds: hours of the day, minutes,
    seconds and the milliseconds, all rounded down. *)
Definition hms_mmm (us : Z) : string :=
  zpad 2 ((us / 3600000000) mod 24) +:+ ":" +:+
  zpad 2 ((us / 60000000) mod 60) +:+ ":" +:+
  zpad 2 ((us / 1000000) mod 60) +:+ "." +:+
  zpad 3 ((us / 1000) mod 1000).

(** The line of a segment as the specification words it. *)
Definition line_of (seg : Segment) : string :=
  "[" +:+ hms_mmm (microseconds (seg_start seg)) +:+ " --> " +:+
  hms_mmm (microseconds (seg_end seg)) +:+ "] " +:+ seg_text seg +:+ LF.

Fixpoint concat_lines (lines : list string) : string :=
  match lines with
  | [] => EmptyString
  | l :: rest => l +:+ concat_lines rest
  end.

End Elapsed.

(** ** What a batch is expected to return *)

Module Expected.

Import Batch.

(** The [file_result] of an uploaded file on a given disk: present when the
    file is persisted and the transcription call returns, absent when the
    call raises. *)
Definition transcription_of (W : World) (model : Provider.ModelHandle)
    (language_option : string) (disk : gmap string string) (f : UploadedFile)
  : option FileResult :=
  match persist W disk f with
  | (Ok temp_filename, disk') =>
      match transcribe W model disk' temp_filename (options_of language_option) with
      | Ok (elapsed, result) =>
          Some {| filename := name f; text := res_text result;
                  transcribe_time := elapsed;
                  segments := res_segments result |}
      | Raise _ => None
      end
  | (Raise _, _) => None
  end.

(** The entry of [all_timestamps] that belongs to a result: present when
    the formatting of its segments returns. *)
Definition timestamps_of (r : FileResult) : option TimestampEntry :=
  match format_segments EmptyString (segments r) with
  | Ok timestamp_text =>
      Some {| ts_filename := filename r; timestamp_text := timestamp_text |}
  | Raise _ => None
  end.

Definition formattable_result (r : FileResult) : bool :=
  forallb Elapsed.formattable_segment (segments r).

(** The part of the combined text export that belongs to one result: the
    header line, a blank line, the text and a blank line. *)
Definition text_block (r : FileResult) : string :=
  "=== " +:+ filename r +:+ " ===" +:+ LF +:+ LF +:+ text r +:+ LF +:+ LF.

(** The state in which a run of the loop stops. *)
Definition final_state (c : Ctl) : State :=
  match c with
  | Continue st => st
  | Abort _ st => st
  end.

End Expected.

(** ** Runs of the loop on the example host *)

Module Runs.

Import Batch Scenario Expected.

Definition three_files : list UploadedFile := [a_mp3; bad_ogg; b_wav].

Definition after_three : State :=
  final_state (process_files world base_handle "" three_files (initial ∅)).

Definition after_one : State :=
  final_state (process_files world base_handle "" [a_mp3] (initial ∅)).

End Runs.

(** ** The result tabs of [main] *)

Module Presenter.

Import Batch.

(** [p.rfind(c)], scanning from index [i] with [found] the last index seen
    so far; [-1] when the character does not occur. *)
Fixpoint rfind_from (c : ascii) (p : string) (i found : Z) : Z :=
  match p with
  | EmptyString => found
  | String x rest =>
      rfind_from c rest (i + 1) (if Ascii.eqb x c then i else found)
  end.

Definition rfind (c : ascii) (p : string) : Z := rfind_from c p 0 (-1).

(** The slices [p[:i]] and [p[i:]] for an index [0 <= i]. *)
Definition slice_to (i : Z) (p : string) : string :=
  substring 0 (Z.to_nat i) p.

Definition slice_from (i : Z) (p : string) : string :=
  substring (Z.to_nat i) (String.length p - Z.to_nat i) p.

(** The [while filenameIndex < dotIndex] loop of [_splitext], with [n] the
    iterations left: [true] when a character other than the dot is met. *)
Fixpoint has_name_before_dot (p : string) (filenameIndex : Z) (n : nat) : bool :=
  match n with
  | O => false
  | S n' =>
      match String.get (Z.to_nat filenameIndex) p with
      | Some x =>
          if Ascii.eqb x "." then has_name_before_dot p (filenameIndex + 1) n'
          else true
      | None => true
      end
  end.

(** [os.path.splitext]: [genericpath._splitext(p, sep, altsep, '.')], where
    [posixpath] has the separator ["/"] and no alternative and [ntpath] has
    the separator ["\"] and the alternative ["/"]. *)
Definition splitext (sep : ascii) (altsep : option ascii) (p : string)
  : string * string :=
  let sepIndex := rfind sep p in
  let sepIndex :=
    match altsep with
    | Some a => Z.max sepIndex (rfind a p)
    | None => sepIndex
    end in
  let dotIndex := rfind "." p in
  if (sepIndex <? dotIndex)
     && has_name_before_dot p (sepIndex + 1) (Z.to_nat (dotIndex - (sepIndex + 1)))
  then (slice_to dotIndex p, slice_from dotIndex p)
  else (p, EmptyString).

(** The file names of the two per-file downloads. *)
Definition transcript_name (sep : ascii) (altsep : option ascii)
    (fname : string) : string :=
  fst (splitext sep altsep fname) +:+ "_transcript.txt".

Definition transcript_timestamps_name (sep : ascii) (altsep : option ascii)
    (fname : string) : string :=
  fst (splitext sep altsep fname) +:+ "_transcript_timestamps.txt".

(** The loop that picks the audio of a tab: the first uploaded file whose
    name is the result's file name. *)
Fixpoint find_uploaded (uploaded_files : list UploadedFile) (fname : string)
  : option UploadedFile :=
  match uploaded_files with
  | [] => None
  | uploaded_file :: rest =>
      if String.eqb (name uploaded_file) fname then Some uploaded_file
      else find_uploaded rest fname
  end.

End Presenter.

(** ** Vocabulary of the further properties *)

Module Vocabulary.

Import Batch Download.

(** A string without a dot. *)
Fixpoint no_dot (s : string) : bool :=
  match s with
  | EmptyString => true
  | String c rest => negb (Ascii.eqb c ".") && no_dot rest
  end.

(** The part of the combined timestamp export that belongs to one result:
    empty when no entry of [all_timestamps] carries its file name. *)
Definition timestamps_block (all_timestamps : list TimestampEntry)
    (r : FileResult) : string :=
  match find_timestamps all_timestamps (filename r) with
  | Some timestamp_data =>
      header (filename r) +:+ timestamp_text timestamp_data +:+ LF +:+ LF
  | None => EmptyString
  end.

(** The result of the upload [b.wav] on the example host. *)
Definition b_result : FileResult :=
  {| filename := "b.wav"; text := "World"; transcribe_time := 1;
     segments := [Scenario.hi_segment] |}.

(** A string in which the character [c] does not occur. *)
Fixpoint lacks (c : ascii) (s : string) : bool :=
  match s with
  | EmptyString => true
  | String x rest => negb (Ascii.eqb x c) && lacks c rest
  end.

(** A Windows host where [ffmpeg] is not on the search path, so that
    starting it raises [FileNotFoundError], and the Chocolatey install
    works. *)
Definition host_missing : Probe.Host := {|
  Probe.run_version := fun exe =>
    if String.eqb exe "ffmpeg"
    then Raise (Exception "[WinError 2] The system cannot find the file specified")
    else Ok 0;
  Probe.path_exists := fun _ => true
|}.

(** The example host with a model whose segments lie within the audio:
    a payload ["corrupt"] cannot be decoded, any other payload is
    transcribed to itself with the single segment [hi_segment]. *)
Definition world_near : World := {|
  tmp_name := tmp_name Scenario.world;
  write_error := write_error Scenario.world;
  transcribe := fun _ disk path _ =>
    match disk !! path with
    | None => Raise (Exception "No such file or directory")
    | Some content =>
        if String.eqb content "corrupt"
        then Raise (Exception "Invalid data found when processing input")
        else Ok (1%Q, {| res_text := content;
                         res_segments := [Scenario.hi_segment] |})
    end
|}.

Definition after_three_near : State :=
  Expected.final_state
    (process_files world_near Scenario.base_handle "" Runs.three_files
       (initial ∅)).

(** A host on which every load fails. *)
Definition runtime_offline : Provider.Runtime :=
  {| Provider.cuda_is_available := true;
     Provider.load_error := fun _ _ => Some (Exception "download failed") |}.

End Vocabulary.

(** * Properties *)

(** ** Strings *)

Section Strings.

Lemma append_empty_l (b : string) : EmptyString +:+ b = b.
Proof. reflexivity. Qed.

Lemma append_cons (c : ascii) (a b : string) :
  String c a +:+ b = String c (a +:+ b).
Proof. reflexivity. Qed.

Lemma append_nil_r (s : string) : s +:+ EmptyString = s.
Proof.
  induction s as [|c s IH]; [reflexivity|].
  now rewrite append_cons, IH.
Qed.

Lemma append_assoc (a b c : string) : (a +:+ b) +:+ c = a +:+ (b +:+ c).
Proof.
  induction a as [|x a IH]; [reflexivity|].
  now rewrite !append_cons, IH.
Qed.

Lemma length_append (a b : string) :
  String.length (a +:+ b) = (String.length a + String.length b)%nat.
Proof.
  induction a as [|x a IH]; [reflexivity|].
  rewrite append_cons. simpl. now rewrite IH.
Qed.

Lemma substring_prefix (a b : string) :
  substring 0 (String.length a) (a +:+ b) = a.
Proof.
  induction a as [|x a IH].
  - rewrite append_empty_l. now destruct b.
  - rewrite append_cons. simpl. now rewrite IH.
Qed.

Lemma drop_last_append (n : nat) (a b : string) :
  String.length b = n -> Timestamp.drop_last n (a +:+ b) = a.
Proof.
  intros Hb. unfold Timestamp.drop_last.
  rewrite length_append, Hb, Nat.add_sub. apply substring_prefix.
Qed.

End Strings.

(** ** Timestamps *)

Section TimestampFacts.

Import Timestamp Elapsed.

Lemma mod_mul_div (a b c : Z) :
  0 < b -> 0 < c -> (a mod (b * c)) / b = (a / b) mod c.
Proof.
  intros Hb Hc.
  rewrite Z.rem_mul_r by lia.
  rewrite (Z.mul_comm b), Z.div_add by lia.
  rewrite (Z.div_small (a mod b) b) by (apply Z.mod_pos_bound; lia).
  lia.
Qed.

Lemma zpad_length (w : nat) (z : Z) : String.length (zpad w z) = w.
Proof.
  revert z. induction w as [|w IH]; intros z; [reflexivity|].
  cbn [zpad]. rewrite length_append, IH. simpl. lia.
Qed.

(** The six digits of the microseconds are the three digits of the
    milliseconds followed by three more. *)
Lemma zpad6_split (z : Z) : zpad 6 z = zpad 3 (z / 1000) +:+ zpad 3 z.
Proof.
  assert (E : z / 1000 = z / 10 / 10 / 10)
    by (rewrite !Z.div_div by lia; reflexivity).
  rewrite E. cbn [zpad].
  rewrite !append_empty_l, !append_assoc. reflexivity.
Qed.

Lemma strftime_hmsf (dt : datetime) :
  strftime dt "%H:%M:%S.%f" =
  zpad 2 (hour dt) +:+ ":" +:+ zpad 2 (minute dt) +:+ ":" +:+
  zpad 2 (second dt) +:+ "." +:+ zpad 6 (microsecond dt).
Proof.
  cbn [strftime Ascii.eqb Bool.eqb directive].
  rewrite append_nil_r. reflexivity.
Qed.

Lemma utcfromtimestamp_raise (t : Q) :
  formattable t = false -> utcfromtimestamp t = Raise out_of_range.
Proof.
  unfold formattable, utcfromtimestamp. cbv zeta. intros H.
  destruct (Z.ltb_spec (microseconds t / 1000000) MIN_SECONDS);
    [reflexivity|].
  destruct (Z.leb_spec MAX_SECONDS (microseconds t / 1000000));
    [reflexivity|].
  exfalso. apply andb_false_iff in H.
  destruct H as [H|H]; [apply Z.leb_gt in H | apply Z.ltb_ge in H]; lia.
Qed.

Lemma utcfromtimestamp_ok (t : Q) :
  formattable t = true ->
  exists dt, utcfromtimestamp t = Ok dt /\
    hour dt = (microseconds t / 3600000000) mod 24 /\
    minute dt = (microseconds t / 60000000) mod 60 /\
    second dt = (microseconds t / 1000000) mod 60 /\
    microsecond dt = microseconds t mod 1000000.
Proof.
  unfold formattable, utcfromtimestamp. cbv zeta. intros H.
  apply andb_true_iff in H. destruct H as [Hlo Hhi].
  apply Z.leb_le in Hlo. apply Z.ltb_lt in Hhi.
  destruct (Z.ltb_spec (microseconds t / 1000000) MIN_SECONDS); [lia|].
  destruct (Z.leb_spec MAX_SECONDS (microseconds t / 1000000)); [lia|].
  eexists. split; [reflexivity|]. cbn [hour minute second microsecond].
  set (secs := microseconds t / 1000000).
  repeat split.
  - change 86400 with (3600 * 24).
    rewrite mod_mul_div by lia. unfold secs.
    rewrite Z.div_div by lia. reflexivity.
  - rewrite Z.mod_mod_divide by (exists 24; reflexivity).
    change 3600 with (60 * 60).
    rewrite mod_mul_div by lia. unfold secs.
    rewrite Z.div_div by lia. reflexivity.
  - rewrite Z.mod_mod_divide by (exists 1440; reflexivity). reflexivity.
Qed.

(** What the formatting of the source prints, for every timestamp it
    accepts: the hours are reduced modulo 24, and the milliseconds are those
    of the timestamp rounded to microseconds. *)
Lemma format_time_ok (t : Q) :
  formattable t = true -> format_time t = Ok (hms_mmm (microseconds t)).
Proof.
  intros H. destruct (utcfromtimestamp_ok t H) as (dt & E & Hh & Hm & Hs & Hu).
  unfold format_time. rewrite E. cbn [bind]. f_equal.
  rewrite strftime_hmsf, Hh, Hm, Hs, Hu, zpad6_split.
  replace (microseconds t mod 1000000 / 1000)
    with ((microseconds t / 1000) mod 1000)
    by (rewrite <- mod_mul_div by lia; reflexivity).
  unfold hms_mmm.
  rewrite <- !append_assoc.
  apply drop_last_append, zpad_length.
Qed.

Lemma format_time_raise (t : Q) :
  formattable t = false -> format_time t = Raise out_of_range.
Proof.
  intros H. unfold format_time. now rewrite utcfromtimestamp_raise.
Qed.

End TimestampFacts.

Section SegmentLines.

Import Timestamp Batch Elapsed.

Lemma format_segments_ok (segs : list Segment) (acc : string) :
  forallb formattable_segment segs = true ->
  format_segments acc segs = Ok (acc +:+ concat_lines (map line_of segs)).
Proof.
  revert acc. induction segs as [|seg segs IH]; intros acc H.
  - cbn [format_segments map concat_lines]. now rewrite append_nil_r.
  - cbn [forallb] in H. apply andb_true_iff in H. destruct H as [Hseg Hrest].
    apply andb_true_iff in Hseg. destruct Hseg as [Hs He].
    cbn [format_segments map concat_lines].
    rewrite (format_time_ok _ Hs), (format_time_ok _ He). cbn [bind].
    rewrite (IH _ Hrest), append_assoc. reflexivity.
Qed.

Lemma format_segments_raise (segs : list Segment) (acc : string) :
  forallb formattable_segment segs = false ->
  format_segments acc segs = Raise out_of_range.
Proof.
  revert acc. induction segs as [|seg segs IH]; intros acc H;
    [discriminate|].
  cbn [forallb] in H. cbn [format_segments].
  destruct (formattable (seg_start seg)) eqn:Hs.
  - rewrite (format_time_ok _ Hs). cbn [bind].
    destruct (formattable (seg_end seg)) eqn:He.
    + rewrite (format_time_ok _ He). cbn [bind]. apply IH.
      unfold formattable_segment in H. now rewrite Hs, He in H.
    + now rewrite (format_time_raise _ He).
  - now rewrite (format_time_raise _ Hs).
Qed.

(** C3 (the source departs from the claim). The formatting goes through
    the calendar: a segment time of 25 hours is printed with the hours
    field [01], not [25], and a time of 0.9999996 s is printed as
    [00:00:01.000], the microsecond rounding having carried before the
    last three digits are cut. *)
Theorem format_time_wraps_after_a_day :
  format_time (90000 # 1) = Ok "01:00:00.000" /\
  format_time (9999996 # 10000000) = Ok "00:00:01.000".
Proof. split; reflexivity. Qed.

(** C4. The segment list [[{start: 1.5, end: 3.25, text: "hi"}]] is
    formatted as the line [[00:00:01.500 --> 00:00:03.250] hi] followed by
    a line feed; and every list of segments whose times the formatter
    accepts is formatted as the concatenation, in segment order, of one
    line [[HH:MM:SS.mmm --> HH:MM:SS.mmm] text] per segment. *)
Theorem format_segments_lines :
  format_segments ""
    [{| seg_start := 3 # 2; seg_end := 13 # 4; seg_text := "hi" |}]
  = Ok ("[00:00:01.500 --> 00:00:03.250] hi" +:+ LF) /\
  (forall segs : list Segment,
     forallb formattable_segment segs = true ->
     format_segments "" segs = Ok (concat_lines (map line_of segs))).
Proof.
  split; [reflexivity|].
  intros segs H. now rewrite (format_segments_ok segs "" H).
Qed.

Lemma format_segments_lines_witness :
  forallb formattable_segment [Scenario.hi_segment; Scenario.hi_segment] = true /\
  format_segments "" [Scenario.hi_segment; Scenario.hi_segment]
  = Ok (concat_lines (map line_of [Scenario.hi_segment; Scenario.hi_segment])).
Proof.
  split; [reflexivity|].
  apply (proj2 format_segments_lines). reflexivity.
Defined.

End SegmentLines.

(** ** The environment probe *)

Section ProbeFacts.

Import Probe.

Lemma prepend_changes (path : string) : chocolatey_bin +:+ path <> path.
Proof.
  intros E. apply (f_equal String.length) in E.
  rewrite length_append in E. cbn in E. lia.
Qed.

Lemma check_ffmpeg_fallback (H : Host) (environ : gmap string string)
    (path : string) :
  environ !! "PATH" = Some path ->
  fallback_succeeds H ->
  check_ffmpeg H environ = (true, <["PATH" := chocolatey_bin +:+ path]> environ).
Proof.
  intros HP ([rc [Hrun Hrc]] & Hex & Hver).
  unfold check_ffmpeg. rewrite Hrun.
  destruct (Z.eqb_spec rc 0) as [->|_]; [lia|].
  now rewrite Hex, Hver, HP.
Qed.

Lemma check_ffmpeg_frame (H : Host) (environ : gmap string string) :
  ~ fallback_succeeds H -> snd (check_ffmpeg H environ) = environ.
Proof.
  intros Hn. unfold check_ffmpeg.
  destruct (run_version H "ffmpeg") as [rc|e] eqn:Hrun; [|reflexivity].
  destruct (Z.eqb_spec rc 0) as [->|Hrc]; [reflexivity|].
  destruct (path_exists H chocolatey_path) eqn:Hex; [|reflexivity].
  destruct (run_version H chocolatey_path) as [rc'|e'] eqn:Hver;
    [|reflexivity].
  destruct (Z.eqb_spec rc' 0) as [->|Hrc']; [|reflexivity].
  exfalso. apply Hn. repeat split; eauto.
Qed.

(** Without a [PATH] variable the probe changes nothing at all. *)
Lemma check_ffmpeg_no_path (H : Host) (environ : gmap string string) :
  environ !! "PATH" = None -> snd (check_ffmpeg H environ) = environ.
Proof.
  intros HP. unfold check_ffmpeg.
  destruct (run_version H "ffmpeg") as [rc|e]; [|reflexivity].
  destruct (rc =? 0); [reflexivity|].
  destruct (path_exists H chocolatey_path); [|reflexivity].
  destruct (run_version H chocolatey_path) as [rc'|e']; [|reflexivity].
  destruct (rc' =? 0); [|reflexivity].
  now rewrite HP.
Qed.

(** In a process whose [PATH] is set, the probe changes [PATH] if and
    only if the primary command ran and failed, the Chocolatey executable
    exists and its version query succeeded; the new value is then the old
    one with the Chocolatey directory in front and nothing else changes;
    in every other outcome, an exception of the probing included, the
    environment is left as it was. *)
Theorem path_prepended_iff (H : Host) (environ : gmap string string)
    (path : string) :
  environ !! "PATH" = Some path ->
  (snd (check_ffmpeg H environ) !! "PATH" <> environ !! "PATH"
     <-> fallback_succeeds H) /\
  (fallback_succeeds H ->
     snd (check_ffmpeg H environ)
     = <["PATH" := chocolatey_bin +:+ path]> environ) /\
  (~ fallback_succeeds H -> snd (check_ffmpeg H environ) = environ).
Proof.
  intros HP. split; [split|split].
  - intros Hne.
    destruct (run_version H "ffmpeg") as [rc|e] eqn:Hrun.
    + destruct (Z.eqb_spec rc 0) as [->|Hrc].
      * exfalso. apply Hne. unfold check_ffmpeg. now rewrite Hrun.
      * destruct (path_exists H chocolatey_path) eqn:Hex.
        -- destruct (run_version H chocolatey_path) as [rc'|e'] eqn:Hver.
           ++ destruct (Z.eqb_spec rc' 0) as [->|Hrc'].
              ** repeat split; eauto.
              ** exfalso. apply Hne. unfold check_ffmpeg.
                 rewrite Hrun, Hex, Hver.
                 destruct (Z.eqb_spec rc 0); [lia|].
                 now destruct (Z.eqb_spec rc' 0); [lia|].
           ++ exfalso. apply Hne. unfold check_ffmpeg.
              rewrite Hrun, Hex, Hver. now destruct (rc =? 0).
        -- exfalso. apply Hne. unfold check_ffmpeg.
           rewrite Hrun, Hex. now destruct (rc =? 0).
    + exfalso. apply Hne. unfold check_ffmpeg. now rewrite Hrun.
  - intros Hf. rewrite (check_ffmpeg_fallback H environ path HP Hf).
    cbn [snd]. rewrite lookup_insert_eq, HP.
    intros E. injection E as E. now apply prepend_changes in E.
  - intros Hf. now rewrite (check_ffmpeg_fallback H environ path HP Hf).
  - apply check_ffmpeg_frame.
Qed.

Lemma path_prepended_iff_witness :
  environ_example !! "PATH" = Some "C:\Windows" /\
  snd (check_ffmpeg host_chocolatey environ_example) !! "PATH"
  = Some "C:\ProgramData\chocolatey\bin;C:\Windows".
Proof.
  split; [reflexivity|].
  destruct (path_prepended_iff host_chocolatey environ_example "C:\Windows")
    as (_ & Hfb & _); [reflexivity|].
  rewrite Hfb; [reflexivity|].
  split; [exists 1; split; [reflexivity | discriminate] | split; reflexivity].
Defined.

(** C8 (the source departs from the claim). When [ffmpeg] is not on the
    search path, starting it raises; the outer [except] returns at once
    and the Chocolatey path is never tried: although the fallback
    executable exists and its version query returns zero, the probe
    reports failure and leaves [PATH] as it was. *)
Theorem fallback_skipped_when_ffmpeg_missing :
  path_exists Vocabulary.host_missing chocolatey_path = true /\
  run_version Vocabulary.host_missing chocolatey_path = Ok 0 /\
  check_ffmpeg Vocabulary.host_missing environ_example
  = (false, environ_example) /\
  snd (check_ffmpeg Vocabulary.host_missing environ_example) !! "PATH"
  = Some "C:\Windows".
Proof. repeat split. Qed.

End ProbeFacts.

(** ** The model provider *)

Section ProviderFacts.

Import Provider.

Variable R : Runtime.

Lemma load_hit (model_name : string) (c : Cache) (h : ModelHandle) :
  entries c !! model_name = Some h ->
  load_whisper_model R model_name c = (Ok h, c).
Proof. intros E. unfold load_whisper_model. now rewrite E. Qed.

Lemma load_keeps (model_name other : string) (c : Cache) (h : ModelHandle) :
  entries c !! model_name = Some h ->
  entries (snd (load_whisper_model R other c)) !! model_name = Some h.
Proof.
  intros E. unfold load_whisper_model.
  destruct (entries c !! other) as [h'|] eqn:Eo; [exact E|].
  destruct (load_whisper_model_body R other (loads c)); cbn; [|exact E].
  rewrite lookup_insert_ne; [exact E|].
  intros ->. rewrite E in Eo. discriminate.
Qed.

Lemma calls_keep (others : list string) (model_name : string) (c : Cache)
    (h : ModelHandle) :
  entries c !! model_name = Some h ->
  entries (calls R others c) !! model_name = Some h.
Proof.
  revert c. induction others as [|o others IH]; intros c E; [exact E|].
  cbn [calls]. apply IH. now apply load_keeps.
Qed.

Lemma load_stores (model_name : string) (c c1 : Cache) (h : ModelHandle) :
  load_whisper_model R model_name c = (Ok h, c1) ->
  entries c1 !! model_name = Some h.
Proof.
  unfold load_whisper_model.
  destruct (entries c !! model_name) as [h'|] eqn:E.
  - intros [= <- <-]. exact E.
  - destruct (load_whisper_model_body R model_name (loads c)); intros [= <- <-].
    cbn. apply lookup_insert_eq.
Qed.

(** C6. When a call for an identifier returns a handle, a call that found
    nothing cached has made exactly one load, on the accelerator when one
    is available and on the processor otherwise; and after any further
    calls, a call with the same identifier returns that same handle and
    leaves the cache and the load count as they were. *)
Theorem cached_handle_reused (model_name : string) (c c1 : Cache)
    (h : ModelHandle) :
  load_whisper_model R model_name c = (Ok h, c1) ->
  (entries c !! model_name = None ->
     loads c1 = S (loads c) /\
     h = {| handle_id := loads c; handle_name := model_name;
            handle_device := if cuda_is_available R then "cuda" else "cpu" |}) /\
  (forall others : list string,
     load_whisper_model R model_name (calls R others c1)
     = (Ok h, calls R others c1)).
Proof.
  intros Hload. split.
  - intros Hmiss. revert Hload. unfold load_whisper_model. rewrite Hmiss.
    unfold load_whisper_model_body.
    destruct (load_error R model_name _); intros [= <- <-]. now cbn.
  - intros others. apply load_hit, calls_keep. eapply load_stores, Hload.
Qed.

End ProviderFacts.

Lemma cached_handle_reused_witness :
  Provider.load_whisper_model Provider.runtime_cpu "base" Provider.empty_cache
  = (Ok Scenario.base_handle,
     Provider.calls Provider.runtime_cpu ["base"] Provider.empty_cache) /\
  Provider.load_whisper_model Provider.runtime_cpu "base"
    (Provider.calls Provider.runtime_cpu ["base"] Provider.empty_cache)
  = (Ok Scenario.base_handle,
     Provider.calls Provider.runtime_cpu ["base"] Provider.empty_cache).
Proof.
  split; [reflexivity|].
  exact (proj2 (cached_handle_reused Provider.runtime_cpu "base"
                  Provider.empty_cache _ Scenario.base_handle eq_refl) []).
Defined.

(** ** The per-file loop *)

Section BatchFacts.

Import Batch Expected.

Variable W : World.
Variable model : Provider.ModelHandle.
Variable language_option : string.

Lemma persist_ok (disk disk' : gmap string string) (f : UploadedFile)
    (p : string) :
  persist W disk f = (Ok p, disk') ->
  disk !! p = None /\ disk' = <[p := getvalue f]> disk.
Proof.
  unfold persist.
  destruct (tmp_name W disk _) as [q|e]; [|discriminate].
  destruct (disk !! q) eqn:Hq; [discriminate|].
  destruct (write_error W _ q _); [discriminate|].
  intros [= <- <-]. split; [exact Hq | apply insert_insert_eq].
Qed.


Lemma cleanup_fresh (disk : gmap string string) (p v : string) :
  disk !! p = None -> cleanup p (<[p := v]> disk) = disk.
Proof.
  intros H. unfold cleanup. rewrite lookup_insert_eq.
  now apply delete_insert_id.
Qed.

Lemma try_body_fs (file_name p : string) (st : State) :
  fs (fst (try_body W model language_option file_name p st)) = fs st.
Proof.
  unfold try_body.
  destruct (transcribe W model _ p _) as [[elapsed result]|e]; [|reflexivity].
  now destruct (format_segments _ _).
Qed.

(** An iteration that falls through has removed its temporary file: the
    disk is as before. *)
Lemma process_file_fs (st st' : State) (f : UploadedFile) :
  process_file W model language_option st f = Continue st' -> fs st' = fs st.
Proof.
  unfold process_file.
  destruct (persist W (fs st) f) as [[p|e] disk] eqn:Hp; [|discriminate].
  apply persist_ok in Hp. destruct Hp as [Hfresh ->].
  pose proof (try_body_fs (name f) p (set_fs st (<[p := getvalue f]> (fs st))))
    as Hfs.
  destruct (try_body _ _ _ _ _ _) as [st1 raised]. cbn [fst] in Hfs.
  intros [= <-]. cbn [fs set_fs].
  destruct raised; cbn [fs st_error]; rewrite Hfs; cbn [fs set_fs];
    now apply cleanup_fresh.
Qed.

Lemma process_files_fs (files : list UploadedFile) (st st' : State) :
  process_files W model language_option files st = Continue st' ->
  fs st' = fs st.
Proof.
  revert st. induction files as [|f files IH]; intros st; cbn [process_files].
  - now intros [= <-].
  - destruct (process_file W model language_option st f) as [st1|e st1] eqn:Hf;
      [|discriminate].
    intros H. rewrite (IH _ H). exact (process_file_fs _ _ _ Hf).
Qed.

(** A write that fails leaves the loop with the created file on the disk. *)
Lemma write_error_leaves_file (st : State) (f : UploadedFile) (p : string)
    (e : Exn) :
  tmp_name W (fs st) (suffix_of (name f)) = Ok p ->
  fs st !! p = None ->
  write_error W (<[p := EmptyString]> (fs st)) p (getvalue f) = Some e ->
  exists st', process_file W model language_option st f = Abort e st' /\
              fs st' !! p = Some EmptyString.
Proof.
  intros Hn Hfresh Hw. eexists. unfold process_file, persist.
  rewrite Hn, Hfresh, Hw. split; [reflexivity|].
  cbn [fs set_fs]. apply lookup_insert_eq.
Qed.

Lemma process_files_app (pre rest : list UploadedFile) (st : State) :
  process_files W model language_option (pre ++ rest) st =
  match process_files W model language_option pre st with
  | Continue st1 => process_files W model language_option rest st1
  | Abort e st1 => Abort e st1
  end.
Proof.
  revert st. induction pre as [|f pre IH]; intros st; [reflexivity|].
  cbn [app process_files].
  destruct (process_file W model language_option st f); [apply IH|reflexivity].
Qed.

End BatchFacts.

Section BatchClaims.

Import Batch Expected.

Variable W : World.
Variable model : Provider.ModelHandle.
Variable language_option : string.

(** The two lists after the [try] body, in terms of the lists before. *)
Lemma try_body_lists (file_name p : string) (st : State) :
  let st' := fst (try_body W model language_option file_name p st) in
  let r := match transcribe W model (fs st) p (options_of language_option) with
           | Ok (elapsed, result) =>
               Some {| filename := file_name; text := res_text result;
                       transcribe_time := elapsed;
                       segments := res_segments result |}
           | Raise _ => None
           end in
  all_results st' = all_results st ++ option_list r /\
  all_timestamps st' = all_timestamps st ++ option_list (r ≫= timestamps_of).
Proof.
  unfold try_body.
  destruct (transcribe W model _ p _) as [[elapsed result]|e]; cbn.
  - unfold timestamps_of. cbn [segments filename].
    destruct (format_segments _ _); cbn; split; try reflexivity.
    now rewrite app_nil_r.
  - now rewrite !app_nil_r.
Qed.

Lemma process_file_lists (st st' : State) (f : UploadedFile) :
  process_file W model language_option st f = Continue st' ->
  let r := transcription_of W model language_option (fs st) f in
  all_results st' = all_results st ++ option_list r /\
  all_timestamps st' = all_timestamps st ++ option_list (r ≫= timestamps_of).
Proof.
  unfold process_file, transcription_of.
  destruct (persist W (fs st) f) as [[p|e] disk]; [|discriminate].
  pose proof (try_body_lists (name f) p (set_fs st disk)) as Hl.
  destruct (try_body _ _ _ _ _ _) as [st1 raised]. cbn in Hl.
  intros [= <-]. cbn [all_results all_timestamps set_fs].
  destruct raised; exact Hl.
Qed.

Lemma process_file_abort (st st' : State) (f : UploadedFile) (e : Exn) :
  process_file W model language_option st f = Abort e st' ->
  persist W (fs st) f = (Raise e, fs st') /\ st' = set_fs st (fs st').
Proof.
  unfold process_file.
  destruct (persist W (fs st) f) as [[p|e'] disk].
  - now destruct (try_body _ _ _ _ _ _).
  - now intros [= <- <-].
Qed.

Lemma process_files_results (files : list UploadedFile) (st st' : State) :
  process_files W model language_option files st = Continue st' ->
  all_results st' =
  all_results st ++ omap (transcription_of W model language_option (fs st)) files.
Proof.
  revert st. induction files as [|f files IH]; intros st; cbn [process_files].
  - intros [= <-]. cbn. now rewrite app_nil_r.
  - destruct (process_file W model language_option st f) as [st1|e st1] eqn:Hf; [|discriminate].
    intros H. rewrite (IH _ H).
    rewrite (process_file_fs _ _ _ _ _ _ Hf).
    destruct (process_file_lists _ _ _ Hf) as [-> _].
    rewrite <- app_assoc. f_equal. cbn [omap list_omap].
    now destruct (transcription_of _ _ _ _ f).
Qed.

(** The entries of [all_timestamps] are those of the results whose
    segments could be formatted, whether the loop ends or is left. *)
Lemma process_files_timestamps (files : list UploadedFile) (st : State) :
  all_timestamps st = omap timestamps_of (all_results st) ->
  match process_files W model language_option files st with
  | Continue st' | Abort _ st' =>
      all_timestamps st' = omap timestamps_of (all_results st')
  end.
Proof.
  revert st. induction files as [|f files IH]; intros st Hst;
    cbn [process_files]; [exact Hst|].
  destruct (process_file W model language_option st f) as [st1|e st1] eqn:Hf.
  - apply IH. destruct (process_file_lists _ _ _ Hf) as [-> ->].
    rewrite omap_app, Hst. f_equal.
    now destruct (transcription_of _ _ _ _ f).
  - apply process_file_abort in Hf. destruct Hf as [_ ->]. exact Hst.
Qed.

Lemma omap_names (files : list UploadedFile) (disk : gmap string string) :
  map filename (omap (transcription_of W model language_option disk) files)
  `sublist_of` map name files.
Proof.
  induction files as [|f files IH]; [constructor|].
  cbn [omap list_omap map].
  destruct (transcription_of _ _ _ _ f) as [r|] eqn:Hr.
  - assert (filename r = name f) as <-.
    { revert Hr. unfold transcription_of.
      destruct (persist W disk f) as [[p|e] d]; [|discriminate].
      destruct (transcribe W model d p _) as [[el res]|e]; [|discriminate].
      now intros [= <-]. }
    now constructor.
  - now constructor.
Qed.

Lemma omap_total {A B} (g : A -> option B) (h : A -> B) (l : list A) :
  Forall (fun a => g a = Some (h a)) l -> omap g l = map h l.
Proof.
  induction 1 as [|a l Ha _ IH]; [reflexivity|].
  cbn [omap list_omap map]. now rewrite Ha, IH.
Qed.

Lemma process_file_continues (st : State) (f : UploadedFile) (q : string) :
  fst (persist W (fs st) f) = Ok q ->
  exists st', process_file W model language_option st f = Continue st'.
Proof.
  unfold process_file. destruct (persist W (fs st) f) as [[p|e] disk];
    [|discriminate].
  intros _. destruct (try_body _ _ _ _ _ _) as [st1 raised]. now eexists.
Qed.

(** A loop whose files can all be persisted runs to its end. *)
Lemma process_files_ends (files : list UploadedFile) (st : State) :
  Forall (fun g => exists q, fst (persist W (fs st) g) = Ok q) files ->
  exists st', process_files W model language_option files st = Continue st'.
Proof.
  revert st. induction files as [|g files IH]; intros st H; [now eexists|].
  apply Forall_cons in H. destruct H as [[q Hq] Hrest].
  destruct (process_file_continues st g q Hq) as [st1 Hg].
  cbn [process_files]. rewrite Hg. apply IH.
  now rewrite (process_file_fs _ _ _ _ _ _ Hg).
Qed.

(** The two lists after a loop that ends: the results of the files whose
    transcription returned and the timestamps of those results, in the
    order of the files, after what the lists held before. *)
Lemma process_files_lists (files : list UploadedFile) (st st' : State) :
  process_files W model language_option files st = Continue st' ->
  all_results st' =
  all_results st ++ omap (transcription_of W model language_option (fs st)) files
  /\
  all_timestamps st' =
  all_timestamps st
  ++ omap timestamps_of
       (omap (transcription_of W model language_option (fs st)) files).
Proof.
  revert st. induction files as [|g files IH]; intros st; cbn [process_files].
  - intros [= <-]. cbn. now rewrite !app_nil_r.
  - destruct (process_file W model language_option st g) as [st1|e st1] eqn:Hg;
      [|discriminate].
    intros H. destruct (IH _ H) as [Hr Ht]. rewrite Hr, Ht.
    rewrite (process_file_fs _ _ _ _ _ _ Hg).
    destruct (process_file_lists _ _ _ Hg) as [-> ->].
    rewrite <- !app_assoc. cbn [omap list_omap].
    destruct (transcription_of _ _ _ _ g) as [r|]; cbn; [|now split].
    split; [reflexivity|]. now destruct (timestamps_of r).
Qed.

(** C1. When the transcription call for a file raises, the iteration adds
    nothing to [all_results] or [all_timestamps], shows the error for that
    file and removes the temporary file; the loop goes on with the files
    that follow exactly as it would have started on them; and when those
    files can be persisted the loop runs to its end with, after the lists
    as they were, one result for every later file whose transcription
    returns, in order, and the timestamps of those results. *)
Theorem transcription_failure_is_local (st : State) (f : UploadedFile)
    (p : string) (disk' : gmap string string) (e : Exn) :
  persist W (fs st) f = (Ok p, disk') ->
  transcribe W model disk' p (options_of language_option) = Raise e ->
  process_file W model language_option st f
  = Continue {| fs := fs st; all_results := all_results st;
                all_timestamps := all_timestamps st;
                errors := errors st ++ [(name f, str_exn e)] |} /\
  (forall rest : list UploadedFile,
     process_files W model language_option (f :: rest) st
     = process_files W model language_option rest (st_error st (name f) e)) /\
  (forall rest : list UploadedFile,
     Forall (fun g => exists q, fst (persist W (fs st) g) = Ok q) rest ->
     exists st' : State,
       process_files W model language_option (f :: rest) st = Continue st' /\
       all_results st' =
       all_results st
       ++ omap (transcription_of W model language_option (fs st)) rest /\
       all_timestamps st' =
       all_timestamps st
       ++ omap timestamps_of
            (omap (transcription_of W model language_option (fs st)) rest)).
Proof.
  intros Hp Ht.
  assert (Hstep : process_file W model language_option st f
                  = Continue (st_error st (name f) e)).
  { unfold process_file, try_body. rewrite Hp. cbn [fs set_fs]. rewrite Ht.
    apply persist_ok in Hp. destruct Hp as [Hfresh ->].
    unfold st_error, set_fs. cbn [fs all_results all_timestamps errors].
    now rewrite cleanup_fresh. }
  split; [exact Hstep|]. split.
  - intros rest. cbn [process_files]. now rewrite Hstep.
  - intros rest Hrest.
    destruct (process_files_ends rest (st_error st (name f) e) Hrest)
      as [st' Hrun].
    exists st'. cbn [process_files]. rewrite Hstep.
    split; [exact Hrun|]. exact (process_files_lists _ _ _ Hrun).
Qed.

(** C5. When the loop ends, [all_results] holds, in the order of the
    uploaded files, exactly one result for each file whose transcription
    call returned and none for a file whose call raised; its file names are
    a sublist of the uploaded names. *)
Theorem results_in_input_order (files : list UploadedFile)
    (disk : gmap string string) (st : State) :
  process_files W model language_option files (initial disk) = Continue st ->
  all_results st = omap (transcription_of W model language_option disk) files /\
  map filename (all_results st) `sublist_of` map name files.
Proof.
  intros H. apply process_files_results in H. cbn in H.
  rewrite H. split; [reflexivity | apply omap_names].
Qed.

(** [all_timestamps] holds one entry for each result whose
    segments could be formatted, in the order of the results; when the
    formatter accepts every segment time of every result, the two lists
    have the same length and the same file name at every index. *)
Theorem timestamps_parallel_when_formattable (files : list UploadedFile)
    (disk : gmap string string) (st : State) :
  process_files W model language_option files (initial disk) = Continue st ->
  all_timestamps st = omap timestamps_of (all_results st) /\
  (Forall (fun r => formattable_result r = true) (all_results st) ->
   List.length (all_results st) = List.length (all_timestamps st) /\
   map filename (all_results st) = map ts_filename (all_timestamps st)).
Proof.
  intros H.
  pose proof (process_files_timestamps files (initial disk) eq_refl) as Hts.
  rewrite H in Hts. split; [exact Hts|].
  intros Hall. rewrite Hts.
  rewrite (omap_total timestamps_of
             (fun r => {| ts_filename := filename r;
                          timestamp_text :=
                            EmptyString +:+
                            Elapsed.concat_lines (map Elapsed.line_of (segments r)) |})).
  - rewrite length_map, map_map. split; [reflexivity|].
    now apply map_ext.
  - eapply Forall_impl; [exact Hall|]. intros r Hr. unfold timestamps_of.
    now rewrite (format_segments_ok _ _ Hr).
Qed.

Lemma transcription_of_formattable (disk : gmap string string)
    (f : UploadedFile) (r : FileResult) :
  (forall m d q o elapsed result,
     transcribe W m d q o = Ok (elapsed, result) ->
     forallb Elapsed.formattable_segment (res_segments result) = true) ->
  transcription_of W model language_option disk f = Some r ->
  formattable_result r = true.
Proof.
  intros HW. unfold transcription_of.
  destruct (persist W disk f) as [[p|e] d]; [|discriminate].
  destruct (transcribe W model d p _) as [[elapsed result]|e] eqn:Ht;
    [|discriminate].
  intros [= <-]. exact (HW _ _ _ _ _ _ Ht).
Qed.

(** C9. With a model whose segment times the formatter accepts, as the
    offsets into an uploaded audio are, the two lists of a loop that ends
    are parallel: they have the same length and the same file name at
    every index, each entry of [all_timestamps] being the one formatted
    from the result at its index. *)
Theorem result_lists_parallel (files : list UploadedFile)
    (disk : gmap string string) (st : State) :
  (forall m d q o elapsed result,
     transcribe W m d q o = Ok (elapsed, result) ->
     forallb Elapsed.formattable_segment (res_segments result) = true) ->
  process_files W model language_option files (initial disk) = Continue st ->
  List.length (all_results st) = List.length (all_timestamps st) /\
  map filename (all_results st) = map ts_filename (all_timestamps st) /\
  Forall2 (fun r t => timestamps_of r = Some t)
    (all_results st) (all_timestamps st).
Proof.
  intros HW H.
  pose proof (process_files_timestamps files (initial disk) eq_refl) as Hts.
  rewrite H in Hts.
  assert (Hall : Forall (fun r => formattable_result r = true) (all_results st)).
  { rewrite (process_files_results _ _ _ H). cbn [all_results initial app].
    apply Forall_forall. intros r Hr.
    apply list_elem_of_omap in Hr. destruct Hr as (f & _ & Hf).
    exact (transcription_of_formattable disk f r HW Hf). }
  assert (Hmap : all_timestamps st
                 = map (fun r => {| ts_filename := filename r;
                                    timestamp_text :=
                                      EmptyString +:+
                                      Elapsed.concat_lines
                                        (map Elapsed.line_of (segments r)) |})
                       (all_results st)).
  { rewrite Hts. apply omap_total.
    eapply Forall_impl; [exact Hall|]. intros r Hr. unfold timestamps_of.
    now rewrite (format_segments_ok _ _ Hr). }
  rewrite Hmap. rewrite length_map, map_map.
  split; [reflexivity|]. split; [now apply map_ext|].
  clear Hmap Hts H. induction Hall as [|r rs Hr _ IH]; cbn [map];
    constructor; [|exact IH].
  unfold timestamps_of. now rewrite (format_segments_ok _ _ Hr).
Qed.

(** C10. When persisting a file raises, the exception leaves the loop: no
    result, no timestamps and no per-file error are recorded for that file
    or for any file after it, and the lists are those reached by the files
    before it. *)
Theorem persist_error_aborts_batch (pre post : list UploadedFile)
    (f : UploadedFile) (st st1 : State) (e : Exn)
    (disk' : gmap string string) :
  process_files W model language_option pre st = Continue st1 ->
  persist W (fs st1) f = (Raise e, disk') ->
  process_files W model language_option (pre ++ f :: post) st
  = Abort e {| fs := disk'; all_results := all_results st1;
               all_timestamps := all_timestamps st1; errors := errors st1 |}.
Proof.
  intros Hpre Hp. rewrite process_files_app, Hpre.
  cbn [process_files]. unfold process_file. now rewrite Hp.
Qed.

End BatchClaims.

(** ** The loop on the example host *)

Section BatchExamples.

Import Batch Expected Scenario Runs.

Lemma transcription_failure_is_local_witness :
  persist world (fs (initial ∅)) bad_ogg
  = (Ok "/tmp/tmpx.ogg", {[ "/tmp/tmpx.ogg" := "corrupt" ]}) /\
  transcribe world base_handle {[ "/tmp/tmpx.ogg" := "corrupt" ]}
    "/tmp/tmpx.ogg" (options_of "")
  = Raise (Exception "Invalid data found when processing input") /\
  Forall (fun g => exists q, fst (persist world (fs (initial ∅)) g) = Ok q)
    [a_mp3; b_wav] /\
  exists st' : State,
    process_files world base_handle "" (bad_ogg :: [a_mp3; b_wav]) (initial ∅)
    = Continue st' /\
    map filename (all_results st') = ["a.mp3"; "b.wav"] /\
    map ts_filename (all_timestamps st') = ["a.mp3"; "b.wav"].
Proof.
  assert (Hp : persist world (fs (initial ∅)) bad_ogg
               = (Ok "/tmp/tmpx.ogg", {[ "/tmp/tmpx.ogg" := "corrupt" ]}))
    by (vm_compute; reflexivity).
  assert (Ht : transcribe world base_handle {[ "/tmp/tmpx.ogg" := "corrupt" ]}
                 "/tmp/tmpx.ogg" (options_of "")
               = Raise (Exception "Invalid data found when processing input"))
    by (vm_compute; reflexivity).
  assert (Hrest : Forall
            (fun g => exists q, fst (persist world (fs (initial ∅)) g) = Ok q)
            [a_mp3; b_wav])
    by (repeat constructor; eexists; vm_compute; reflexivity).
  split; [exact Hp|]. split; [exact Ht|]. split; [exact Hrest|].
  destruct (proj2 (proj2 (transcription_failure_is_local world base_handle ""
                            (initial ∅) bad_ogg "/tmp/tmpx.ogg" _ _ Hp Ht))
                  [a_mp3; b_wav] Hrest)
    as (st' & Hrun & Hr & Hts).
  exists st'. split; [exact Hrun|].
  rewrite Hr, Hts. split; vm_compute; reflexivity.
Defined.

Lemma results_in_input_order_witness :
  process_files world base_handle "" three_files (initial ∅)
  = Continue after_three /\
  all_results after_three
  = omap (transcription_of world base_handle "" ∅) three_files /\
  map filename (all_results after_three) = ["a.mp3"; "b.wav"].
Proof.
  assert (Hrun : process_files world base_handle "" three_files (initial ∅)
                 = Continue after_three) by (vm_compute; reflexivity).
  split; [exact Hrun|]. split; [|reflexivity].
  exact (proj1 (results_in_input_order world base_handle ""
                  three_files ∅ after_three Hrun)).
Defined.

Lemma timestamps_parallel_when_formattable_witness :
  process_files world base_handle "" three_files (initial ∅)
  = Continue after_three /\
  Forall (fun r => formattable_result r = true) (all_results after_three) /\
  List.length (all_results after_three)
  = List.length (all_timestamps after_three) /\
  map filename (all_results after_three)
  = map ts_filename (all_timestamps after_three).
Proof.
  assert (Hrun : process_files world base_handle "" three_files (initial ∅)
                 = Continue after_three) by (vm_compute; reflexivity).
  split; [exact Hrun|].
  assert (HF : Forall (fun r => formattable_result r = true)
                 (all_results after_three))
    by (repeat constructor).
  split; [exact HF|].
  exact (proj2 (timestamps_parallel_when_formattable world base_handle ""
                  three_files ∅ after_three Hrun) HF).
Defined.

(** Outside what a model returns for an upload: a file whose transcription
    returns a segment that starts in the year 10000 of the calendar gets a
    result, the formatting raises after the result was appended, and the
    file gets no entry in [all_timestamps]. *)
Lemma parallel_lists_counterexample :
  exists st : State,
    process_files world base_handle "" [far_m4a] (initial ∅) = Continue st /\
    List.length (all_results st) = 1%nat /\
    List.length (all_timestamps st) = 0%nat.
Proof. eexists. split; [reflexivity|]. split; reflexivity. Qed.

Lemma persist_error_aborts_batch_witness :
  process_files world base_handle "" [a_mp3] (initial ∅) = Continue after_one /\
  persist world (fs after_one) big_flac
  = (Raise (Exception "No space left on device"),
     {[ "/tmp/tmpx.flac" := "" ]}) /\
  process_files world base_handle "" ([a_mp3] ++ big_flac :: [b_wav]) (initial ∅)
  = Abort (Exception "No space left on device")
      {| fs := {[ "/tmp/tmpx.flac" := "" ]};
         all_results := all_results after_one;
         all_timestamps := all_timestamps after_one;
         errors := errors after_one |}.
Proof.
  split; [reflexivity|]. split; [reflexivity|].
  exact (persist_error_aborts_batch world base_handle "" [a_mp3] [b_wav]
           big_flac (initial ∅) after_one _ _ eq_refl eq_refl).
Defined.

(** C2 (the source departs from the claim). A write that fails while the
    bytes of a file are persisted leaves the loop before the [try] is
    entered: the temporary file that was created stays on the disk. *)
Theorem temp_file_left_after_write_error :
  exists st : State,
    process_files world base_handle "" [big_flac] (initial ∅)
    = Abort (Exception "No space left on device") st /\
    fs st !! "/tmp/tmpx.flac" = Some "".
Proof. eexists. split; reflexivity. Qed.

End BatchExamples.

(** ** The combined export *)

Section DownloadFacts.

Import Batch Expected Download.

Lemma combine_fst (all_timestamps : list TimestampEntry)
    (results : list FileResult) (acc acc' : string) :
  fst (combine all_timestamps results acc acc')
  = acc +:+ Elapsed.concat_lines (map text_block results).
Proof.
  revert acc acc'. induction results as [|r results IH]; intros acc acc'.
  - cbn [combine map Elapsed.concat_lines fst]. now rewrite append_nil_r.
  - cbn [combine map Elapsed.concat_lines]. rewrite IH.
    unfold header, text_block. now rewrite !append_assoc.
Qed.

(** C7. Two results for ["a.mp3"] and ["b.wav"] with the texts ["Hello"]
    and ["World"] give the combined text
    [=== a.mp3 ===\n\nHello\n\n=== b.wav ===\n\nWorld\n\n]; and for any
    results the combined text is the concatenation, in result order, of a
    header [=== filename ===], a blank line, the text and a blank line. *)
Theorem combined_text_export :
  (forall (t1 t2 : Q) (segs1 segs2 : list Segment)
          (all_timestamps : list TimestampEntry),
     fst <$> combined_export
       [{| filename := "a.mp3"; text := "Hello"; transcribe_time := t1;
           segments := segs1 |};
        {| filename := "b.wav"; text := "World"; transcribe_time := t2;
           segments := segs2 |}] all_timestamps
     = Some ("=== a.mp3 ===" +:+ LF +:+ LF +:+ "Hello" +:+ LF +:+ LF +:+
             "=== b.wav ===" +:+ LF +:+ LF +:+ "World" +:+ LF +:+ LF)) /\
  (forall (all_results : list FileResult)
          (all_timestamps : list TimestampEntry),
     fst (combine all_timestamps all_results "" "")
     = Elapsed.concat_lines (map text_block all_results)).
Proof.
  split.
  - intros. reflexivity.
  - intros. now rewrite combine_fst.
Qed.

End DownloadFacts.

(** * Further properties *)

(** ** Timestamps *)

Section TimestampMore.

Import Timestamp Batch Elapsed.

Lemma hms_mmm_length (us : Z) : String.length (hms_mmm us) = 12%nat.
Proof.
  unfold hms_mmm. rewrite !length_append, !zpad_length. reflexivity.
Qed.

(** Whenever a time is formatted at all, the text has the fixed width of
    [HH:MM:SS.mmm]. *)
Theorem format_time_width (t : Q) (s : string) :
  format_time t = Ok s -> String.length s = 12%nat.
Proof.
  destruct (formattable t) eqn:Hf.
  - rewrite (format_time_ok t Hf). intros [= <-]. apply hms_mmm_length.
  - now rewrite (format_time_raise t Hf).
Qed.

Lemma format_time_width_witness :
  format_time (3 # 2) = Ok "00:00:01.500" /\
  String.length "00:00:01.500" = 12%nat.
Proof.
  split; [reflexivity|].
  exact (format_time_width (3 # 2) "00:00:01.500" eq_refl).
Defined.

(** For a time that rounds to less than a day of microseconds the text is
    the elapsed time itself: the hours field is the number of whole
    hours. *)
Theorem format_time_under_a_day (t : Q) :
  0 <= microseconds t < 86400000000 ->
  format_time t
  = Ok (zpad 2 (microseconds t / 3600000000) +:+ ":" +:+
        zpad 2 ((microseconds t / 60000000) mod 60) +:+ ":" +:+
        zpad 2 ((microseconds t / 1000000) mod 60) +:+ "." +:+
        zpad 3 ((microseconds t / 1000) mod 1000)).
Proof.
  intros [Hlo Hhi].
  assert (Hf : formattable t = true).
  { unfold formattable, MIN_SECONDS, MAX_SECONDS. cbv zeta.
    assert (0 <= microseconds t / 1000000 < 86400).
    { split; [apply Z.div_pos; lia|apply Z.div_lt_upper_bound; lia]. }
    apply andb_true_iff. split; [apply Z.leb_le | apply Z.ltb_lt]; lia. }
  rewrite (format_time_ok t Hf). unfold hms_mmm.
  rewrite (Z.mod_small (microseconds t / 3600000000) 24); [reflexivity|].
  split; [apply Z.div_pos; lia|apply Z.div_lt_upper_bound; lia].
Qed.

Lemma format_time_under_a_day_witness :
  0 <= microseconds (13 # 4) < 86400000000 /\
  format_time (13 # 4) = Ok "00:00:03.250".
Proof.
  assert (Hb : 0 <= microseconds (13 # 4) < 86400000000)
    by (split; [discriminate | reflexivity]).
  split; [exact Hb|].
  exact (format_time_under_a_day (13 # 4) Hb).
Defined.

Lemma round_half_even_shift (n m : Z) (d : positive) :
  Z.even m = true ->
  round_half_even ((n + m * Z.pos d) # d) = round_half_even (n # d) + m.
Proof.
  intros Hm. unfold round_half_even. cbn [Qnum Qden].
  rewrite Z.div_add, Z.mod_add by lia.
  destruct (2 * (n mod Z.pos d) ?= Z.pos d); try lia.
  rewrite Z.even_add, Hm.
  destruct (Z.even (n / Z.pos d)); cbn; lia.
Qed.

Lemma microseconds_shift (t : Q) (m : Z) :
  microseconds (t + inject_Z m) = microseconds t + m * 1000000.
Proof.
  unfold microseconds. destruct t as [n d].
  unfold Qplus, Qmult, inject_Z. cbn [Qnum Qden].
  rewrite !Pos.mul_1_r.
  replace ((n * 1 + m * Z.pos d) * 1000000)
    with (n * 1000000 + (m * 1000000) * Z.pos d) by lia.
  apply round_half_even_shift.
  rewrite Z.even_mul. cbn. apply orb_true_r.
Qed.

Lemma hms_mmm_day (us k : Z) :
  hms_mmm (us + 86400 * k * 1000000) = hms_mmm us.
Proof.
  unfold hms_mmm.
  replace (us + 86400 * k * 1000000) with (us + (24 * k) * 3600000000) at 1
    by lia.
  replace (us + 86400 * k * 1000000) with (us + (60 * (24 * k)) * 60000000) at 1
    by lia.
  replace (us + 86400 * k * 1000000) with (us + (60 * (1440 * k)) * 1000000) at 1
    by lia.
  replace (us + 86400 * k * 1000000) with (us + (1000 * (86400 * k)) * 1000)
    by lia.
  rewrite !Z.div_add by lia.
  rewrite (Z.mul_comm 24 k), (Z.mul_comm 60 (k * 24)),
    (Z.mul_comm 60 (1440 * k)), (Z.mul_comm 1000 (86400 * k)).
  rewrite !Z.mod_add by lia. reflexivity.
Qed.

(** The day is lost in the text: two accepted times that differ by a whole
    number of days are formatted alike. *)
Theorem format_time_day_periodic (t : Q) (k : Z) :
  formattable t = true ->
  formattable (t + inject_Z (86400 * k)) = true ->
  format_time (t + inject_Z (86400 * k)) = format_time t.
Proof.
  intros H1 H2. rewrite (format_time_ok _ H1), (format_time_ok _ H2).
  now rewrite microseconds_shift, hms_mmm_day.
Qed.

Lemma format_time_day_periodic_witness :
  formattable (3 # 2) = true /\
  formattable ((3 # 2) + inject_Z (86400 * 2)) = true /\
  format_time ((3 # 2) + inject_Z (86400 * 2)) = format_time (3 # 2).
Proof.
  split; [reflexivity|]. split; [reflexivity|].
  exact (format_time_day_periodic (3 # 2) 2 eq_refl eq_refl).
Defined.

(** The formatting of a list of segments returns exactly when the
    formatter accepts both times of every segment: one rejected time
    anywhere makes the whole call raise. *)
Theorem format_segments_returns_iff (segs : list Segment) (acc : string) :
  (exists txt, format_segments acc segs = Ok txt)
  <-> forallb formattable_segment segs = true.
Proof.
  split.
  - intros [txt H]. destruct (forallb formattable_segment segs) eqn:Hf;
      [reflexivity|].
    rewrite (format_segments_raise segs acc Hf) in H. discriminate.
  - intros Hf. eexists. apply (format_segments_ok segs acc Hf).
Qed.

(** Formatting a list of segments in two parts, the second continuing the
    text of the first, is formatting the whole list. *)
Theorem format_segments_app (segs1 segs2 : list Segment) (acc : string) :
  format_segments acc (segs1 ++ segs2)
  = bind (format_segments acc segs1) (fun txt => format_segments txt segs2).
Proof.
  revert acc. induction segs1 as [|seg segs1 IH]; intros acc; [reflexivity|].
  cbn [app format_segments].
  destruct (format_time (seg_start seg)) as [s|e]; [|reflexivity]. cbn [bind].
  destruct (format_time (seg_end seg)) as [s'|e]; [|reflexivity]. cbn [bind].
  apply IH.
Qed.

End TimestampMore.

(** ** The per-file loop *)

Section BatchMore.

Import Batch Expected Vocabulary.

Variable W : World.
Variable model : Provider.ModelHandle.
Variable language_option : string.

(** When the loop ends, the disk is what it was before the loop: every
    temporary file is gone and no other file was touched. *)
Theorem loop_restores_disk (files : list UploadedFile) (st st' : State) :
  process_files W model language_option files st = Continue st' ->
  fs st' = fs st.
Proof. apply process_files_fs. Qed.

(** Persisting never changes or removes a file that is on the disk, whether
    it returns or raises; when it returns, the path is new and holds
    exactly the uploaded bytes. *)
Theorem persist_keeps_disk (disk : gmap string string) (f : UploadedFile) :
  disk ⊆ snd (persist W disk f) /\
  (forall p, fst (persist W disk f) = Ok p ->
     disk !! p = None /\ snd (persist W disk f) !! p = Some (getvalue f)).
Proof.
  unfold persist.
  destruct (tmp_name W disk _) as [q|e]; [|now split].
  destruct (disk !! q) eqn:Hq; [now split|].
  destruct (write_error W _ q _); cbn [fst snd].
  - split; [now apply insert_subseteq | discriminate].
  - rewrite insert_insert_eq. split; [now apply insert_subseteq|].
    intros p [= <-]. split; [exact Hq | apply lookup_insert_eq].
Qed.

Lemma process_file_step (st st' : State) (f : UploadedFile) :
  process_file W model language_option st f = Continue st' ->
  (exists txt,
     all_timestamps st'
     = all_timestamps st ++ [{| ts_filename := name f; timestamp_text := txt |}]
     /\ errors st' = errors st) \/
  (exists e,
     all_timestamps st' = all_timestamps st /\
     errors st' = errors st ++ [(name f, str_exn e)]).
Proof.
  unfold process_file, try_body.
  destruct (persist W (fs st) f) as [[p|e] disk]; [|discriminate].
  cbn [fs set_fs].
  destruct (transcribe W model disk p _) as [[elapsed result]|e].
  - destruct (format_segments _ _) as [txt|e]; intros [= <-]; cbn.
    + left. now exists txt.
    + right. now exists e.
  - intros [= <-]. cbn. right. now exists e.
Qed.

(** An iteration that falls through adds either one entry to
    [all_timestamps] or one error to the display, in both cases under the
    name of the file, and never both. *)
Theorem process_file_reports (st st' : State) (f : UploadedFile) :
  process_file W model language_option st f = Continue st' ->
  (exists txt,
     all_timestamps st'
     = all_timestamps st ++ [{| ts_filename := name f; timestamp_text := txt |}]
     /\ errors st' = errors st) \/
  (exists e,
     all_timestamps st' = all_timestamps st /\
     errors st' = errors st ++ [(name f, str_exn e)]).
Proof. apply process_file_step. Qed.

(** When the loop ends, every uploaded file is accounted for: the entries
    of [all_timestamps] and the displayed errors together are as many as
    the files. *)
Theorem every_file_reported (files : list UploadedFile)
    (disk : gmap string string) (st : State) :
  process_files W model language_option files (initial disk) = Continue st ->
  (List.length (all_timestamps st) + List.length (errors st))%nat
  = List.length files.
Proof.
  assert (G : forall fl s s',
    process_files W model language_option fl s = Continue s' ->
    (List.length (all_timestamps s') + List.length (errors s'))%nat
    = (List.length (all_timestamps s) + List.length (errors s)
       + List.length fl)%nat).
  { induction fl as [|f fl IH]; intros s s'; cbn [process_files].
    - intros [= <-]. cbn. lia.
    - destruct (process_file W model language_option s f) as [s1|e s1] eqn:Hf;
        [|discriminate].
      intros H. rewrite (IH _ _ H).
      destruct (process_file_step s s1 f Hf) as [[txt [-> ->]]|[e' [-> ->]]];
        rewrite length_app; cbn; lia. }
  intros H. now rewrite (G _ _ _ H).
Qed.

End BatchMore.

(** ** File names: the temporary suffix and the download names *)

Section FileNames.

Import Batch Presenter Vocabulary.

Lemma no_dot_app (a b : string) :
  no_dot (a +:+ b) = no_dot a && no_dot b.
Proof.
  induction a as [|c a IH]; [reflexivity|].
  rewrite append_cons. cbn [no_dot]. rewrite IH. apply andb_assoc.
Qed.

Lemma split_last_plain (s acc : string) :
  no_dot s = true -> split_last acc s = acc +:+ s.
Proof.
  revert acc. induction s as [|c s IH]; intros acc H; cbn [split_last].
  - now rewrite append_nil_r.
  - cbn [no_dot] in H. apply andb_true_iff in H. destruct H as [Hc Hs].
    apply negb_true_iff in Hc. rewrite Hc, (IH _ Hs), append_assoc.
    reflexivity.
Qed.

Lemma split_last_after_dot (stem ext acc : string) :
  no_dot ext = true -> split_last acc (stem +:+ "." +:+ ext) = ext.
Proof.
  intros He. revert acc. induction stem as [|c stem IH]; intros acc.
  - rewrite append_empty_l. change ("." +:+ ext) with (String "." ext).
    cbn [split_last Ascii.eqb Bool.eqb]. now rewrite split_last_plain.
  - rewrite append_cons. cbn [split_last].
    destruct (Ascii.eqb c "."); apply IH.
Qed.

(** The suffix of the temporary file is the extension of the uploaded
    name: the dot and what follows the last dot. *)
Theorem suffix_of_extension (stem ext : string) :
  no_dot ext = true -> suffix_of (stem +:+ "." +:+ ext) = "." +:+ ext.
Proof.
  intros He. unfold suffix_of. now rewrite split_last_after_dot.
Qed.

Lemma suffix_of_extension_witness :
  no_dot "mp3" = true /\ suffix_of ("my.talk" +:+ "." +:+ "mp3") = ".mp3".
Proof.
  split; [reflexivity|]. exact (suffix_of_extension "my.talk" "mp3" eq_refl).
Defined.

(** A name without any dot is taken whole as the suffix. *)
Theorem suffix_of_plain_name (file_name : string) :
  no_dot file_name = true -> suffix_of file_name = "." +:+ file_name.
Proof.
  intros H. unfold suffix_of. now rewrite split_last_plain.
Qed.

Lemma suffix_of_plain_name_witness :
  no_dot "recording" = true /\ suffix_of "recording" = ".recording".
Proof.
  split; [reflexivity|]. exact (suffix_of_plain_name "recording" eq_refl).
Defined.

Lemma split_last_no_dot (s acc : string) :
  no_dot acc = true -> no_dot (split_last acc s) = true.
Proof.
  revert acc. induction s as [|c s IH]; intros acc H; cbn [split_last];
    [exact H|].
  destruct (Ascii.eqb c ".") eqn:Hc; apply IH; [reflexivity|].
  rewrite no_dot_app, H. cbn [no_dot]. now rewrite Hc.
Qed.

(** Whatever the uploaded name, the suffix has one dot only, the one in
    front. *)
Theorem suffix_has_one_dot (file_name : string) :
  exists ext, suffix_of file_name = "." +:+ ext /\ no_dot ext = true.
Proof.
  eexists. split; [reflexivity|]. now apply split_last_no_dot.
Qed.

Lemma substring_all (p : string) : substring 0 (String.length p) p = p.
Proof.
  induction p as [|c p IH]; [reflexivity|]. cbn. now rewrite IH.
Qed.

Lemma substring_join (p : string) (n : nat) :
  (n <= String.length p)%nat ->
  substring 0 n p +:+ substring n (String.length p - n) p = p.
Proof.
  revert n. induction p as [|c p IH]; intros n Hn.
  - cbn in Hn. assert (n = 0%nat) as -> by lia. reflexivity.
  - destruct n as [|n].
    + cbn [substring]. rewrite append_empty_l.
      change (String.length (String c p) - 0)%nat
        with (S (String.length p)).
      cbn [substring]. now rewrite substring_all.
    + cbn [substring String.length Nat.sub]. rewrite append_cons.
      rewrite IH by (cbn in Hn; lia). reflexivity.
Qed.

Lemma rfind_from_bounds (c : ascii) (p : string) (i found : Z) :
  rfind_from c p i found = found \/
  i <= rfind_from c p i found < i + Z.of_nat (String.length p).
Proof.
  revert i found. induction p as [|x p IH]; intros i found; [now left|].
  cbn [rfind_from String.length].
  destruct (IH (i + 1) (if Ascii.eqb x c then i else found)) as [E|E].
  - rewrite E. destruct (Ascii.eqb x c); [right; lia | now left].
  - right. lia.
Qed.

Lemma rfind_from_dot (p : string) (i found : Z) (acc : string) :
  rfind_from "." p i found = found /\ no_dot p = true \/
  i <= rfind_from "." p i found < i + Z.of_nat (String.length p) /\
  substring (Z.to_nat (rfind_from "." p i found - i))
    (String.length p - Z.to_nat (rfind_from "." p i found - i)) p
  = "." +:+ split_last acc p.
Proof.
  revert i found acc. induction p as [|x p IH]; intros i found acc;
    [now left|].
  cbn [rfind_from split_last no_dot String.length].
  destruct (Ascii.eqb x ".") eqn:Hx.
  - apply Ascii.eqb_eq in Hx. subst x. right.
    destruct (IH (i + 1) i EmptyString) as [[E Hp]|[Hb Hs]].
    + rewrite E. split; [lia|]. rewrite Z.sub_diag.
      change (Z.to_nat 0) with 0%nat. cbn [substring Nat.sub].
      rewrite substring_all, split_last_plain by exact Hp.
      reflexivity.
    + split; [lia|].
      replace (Z.to_nat (rfind_from "." p (i + 1) i - i))
        with (S (Z.to_nat (rfind_from "." p (i + 1) i - (i + 1)))) by lia.
      cbn [substring Nat.sub]. exact Hs.
  - destruct (IH (i + 1) found (acc +:+ String x EmptyString))
      as [[E Hp]|[Hb Hs]].
    + left. now rewrite E, Hp.
    + right. split; [lia|].
      replace (Z.to_nat (rfind_from "." p (i + 1) found - i))
        with (S (Z.to_nat (rfind_from "." p (i + 1) found - (i + 1)))) by lia.
      cbn [substring Nat.sub]. exact Hs.
Qed.

Lemma sep_index_lower (sep : ascii) (altsep : option ascii) (p : string) :
  -1 <= match altsep with
        | Some a => Z.max (rfind sep p) (rfind a p)
        | None => rfind sep p
        end.
Proof.
  assert (H : forall c, -1 <= rfind c p).
  { intros c. unfold rfind.
    destruct (rfind_from_bounds c p 0 (-1)) as [E|E]; lia. }
  destruct altsep as [a|]; [pose proof (H sep); pose proof (H a); lia|apply H].
Qed.

(** [os.path.splitext] loses nothing: the root followed by the extension
    is the name. *)
Lemma splitext_parts (sep : ascii) (altsep : option ascii) (p : string) :
  fst (splitext sep altsep p) +:+ snd (splitext sep altsep p) = p.
Proof.
  unfold splitext. cbv zeta.
  pose proof (sep_index_lower sep altsep p) as Hsep.
  destruct (_ <? rfind "." p) eqn:Hlt; cbn [andb fst snd];
    [|apply append_nil_r].
  destruct (has_name_before_dot _ _ _); cbn [fst snd]; [|apply append_nil_r].
  apply Z.ltb_lt in Hlt. unfold slice_to, slice_from.
  apply substring_join.
  unfold rfind in *.
  destruct (rfind_from_bounds "." p 0 (-1)) as [E|E]; lia.
Qed.

Lemma splitext_ext (sep : ascii) (altsep : option ascii) (p : string) :
  snd (splitext sep altsep p) <> EmptyString ->
  snd (splitext sep altsep p) = suffix_of p.
Proof.
  unfold splitext. cbv zeta.
  pose proof (sep_index_lower sep altsep p) as Hsep.
  destruct (_ <? rfind "." p) eqn:Hlt; cbn [andb fst snd]; [|congruence].
  destruct (has_name_before_dot _ _ _); cbn [fst snd]; [|congruence].
  intros _. apply Z.ltb_lt in Hlt. unfold slice_from, suffix_of.
  unfold rfind in *.
  destruct (rfind_from_dot p 0 (-1) EmptyString) as [[E _]|[_ Hs]]; [lia|].
  rewrite Z.sub_0_r in Hs. exact Hs.
Qed.

(** When [os.path.splitext] finds an extension, it is the suffix that the
    temporary file of the same upload was given. *)
Theorem splitext_extension_is_suffix (sep : ascii) (altsep : option ascii)
    (p : string) :
  snd (splitext sep altsep p) <> EmptyString ->
  snd (splitext sep altsep p) = suffix_of p.
Proof. apply splitext_ext. Qed.

Lemma rfind_from_absent (c : ascii) (s : string) (i found : Z) :
  lacks c s = true -> rfind_from c s i found = found.
Proof.
  revert i found. induction s as [|x s IH]; intros i found H; [reflexivity|].
  cbn [lacks] in H. apply andb_true_iff in H. destruct H as [Hx Hs].
  apply negb_true_iff in Hx. cbn [rfind_from]. rewrite Hx. now apply IH.
Qed.

Lemma rfind_from_app (c : ascii) (a b : string) (i found : Z) :
  rfind_from c (a +:+ b) i found
  = rfind_from c b (i + Z.of_nat (String.length a)) (rfind_from c a i found).
Proof.
  revert i found. induction a as [|x a IH]; intros i found.
  - rewrite append_empty_l. cbn [String.length rfind_from Z.of_nat].
    now rewrite Z.add_0_r.
  - rewrite append_cons. cbn [rfind_from String.length]. rewrite IH.
    f_equal. lia.
Qed.

Lemma no_dot_lacks (s : string) : no_dot s = lacks "." s.
Proof. induction s as [|x s IH]; [reflexivity|]. cbn. now rewrite IH. Qed.

(** The names of the two per-file downloads are the uploaded name with its
    extension replaced. For a name without separators that starts with a
    character other than the dot and ends in a dot and an extension, the
    suffix of the temporary file is the dot and the extension, and the
    downloads are called by what stands before that dot followed by
    [_transcript.txt] and by [_transcript_timestamps.txt]. *)
Theorem download_names_replace_extension (sep : ascii) (altsep : option ascii)
    (c : ascii) (stem ext : string) :
  Ascii.eqb c "." = false ->
  no_dot ext = true ->
  lacks sep (String c stem +:+ "." +:+ ext) = true ->
  (forall a, altsep = Some a ->
     lacks a (String c stem +:+ "." +:+ ext) = true) ->
  suffix_of (String c stem +:+ "." +:+ ext) = "." +:+ ext /\
  transcript_name sep altsep (String c stem +:+ "." +:+ ext)
  = String c stem +:+ "_transcript.txt" /\
  transcript_timestamps_name sep altsep (String c stem +:+ "." +:+ ext)
  = String c stem +:+ "_transcript_timestamps.txt".
Proof.
  intros Hc Hext Hsep Halt.
  split; [now apply suffix_of_extension|].
  assert (Hroot : fst (splitext sep altsep (String c stem +:+ "." +:+ ext))
                  = String c stem).
  { unfold splitext. cbv zeta.
    assert (Hs : match altsep with
                 | Some a =>
                     Z.max (rfind sep (String c stem +:+ "." +:+ ext))
                       (rfind a (String c stem +:+ "." +:+ ext))
                 | None => rfind sep (String c stem +:+ "." +:+ ext)
                 end = -1).
    { unfold rfind. rewrite (rfind_from_absent sep _ 0 (-1) Hsep).
      destruct altsep as [a|]; [|reflexivity].
      now rewrite (rfind_from_absent a _ 0 (-1) (Halt a eq_refl)). }
    rewrite Hs.
    assert (Hd : rfind "." (String c stem +:+ "." +:+ ext)
                 = Z.of_nat (String.length (String c stem))).
    { unfold rfind. rewrite rfind_from_app.
      change ("." +:+ ext) with (String "." ext).
      cbn [rfind_from Ascii.eqb Bool.eqb]. rewrite Z.add_0_l.
      apply rfind_from_absent. now rewrite <- no_dot_lacks. }
    rewrite Hd.
    replace (-1 <? Z.of_nat (String.length (String c stem))) with true
      by (symmetry; apply Z.ltb_lt; lia).
    replace (Z.to_nat (Z.of_nat (String.length (String c stem)) - (-1 + 1)))
      with (S (String.length stem)) by (cbn [String.length]; lia).
    rewrite append_cons.
    change (-1 + 1) with 0.
    cbn [has_name_before_dot]. change (Z.to_nat 0) with 0%nat.
    cbn [String.get]. rewrite Hc. cbn [andb fst].
    unfold slice_to. rewrite Nat2Z.id, <- append_cons.
    apply substring_prefix. }
  unfold transcript_name, transcript_timestamps_name. rewrite Hroot.
  now split.
Qed.

Lemma download_names_replace_extension_witness :
  Ascii.eqb "t" "." = false /\
  no_dot "mp3" = true /\
  lacks "/" (String "t" "alk.v2" +:+ "." +:+ "mp3") = true /\
  (forall a, @None ascii = Some a ->
     lacks a (String "t" "alk.v2" +:+ "." +:+ "mp3") = true) /\
  transcript_name "/" None "talk.v2.mp3" = "talk.v2_transcript.txt" /\
  transcript_timestamps_name "/" None "talk.v2.mp3"
  = "talk.v2_transcript_timestamps.txt".
Proof.
  assert (Halt : forall a, @None ascii = Some a ->
            lacks a (String "t" "alk.v2" +:+ "." +:+ "mp3") = true)
    by (intros a E; discriminate E).
  split; [reflexivity|]. split; [reflexivity|]. split; [reflexivity|].
  split; [exact Halt|].
  exact (proj2 (download_names_replace_extension "/" None "t" "alk.v2" "mp3"
                  eq_refl eq_refl eq_refl Halt)).
Defined.

Lemma splitext_extension_is_suffix_witness :
  snd (splitext "/" None "talk.v2.mp3") <> EmptyString /\
  snd (splitext "/" None "talk.v2.mp3") = ".mp3".
Proof.
  assert (H : snd (splitext "/" None "talk.v2.mp3") <> EmptyString)
    by discriminate.
  split; [exact H|].
  exact (splitext_extension_is_suffix "/" None "talk.v2.mp3" H).
Defined.

End FileNames.

(** ** The result tabs and the combined timestamp export *)

Section PresenterFacts.

Import Batch Expected Download Presenter Vocabulary.

Lemma find_timestamps_absent (tss : list TimestampEntry) (fname : string) :
  fname ∉ map ts_filename tss -> find_timestamps tss fname = None.
Proof.
  induction tss as [|t tss IH]; intros H; [reflexivity|].
  cbn [map] in H. apply not_elem_of_cons in H. destruct H as [Hne Hrest].
  cbn [find_timestamps].
  destruct (String.eqb_spec (ts_filename t) fname) as [E|_]; [congruence|].
  now apply IH.
Qed.

Lemma timestamps_of_filename (r : FileResult) (t : TimestampEntry) :
  timestamps_of r = Some t -> ts_filename t = filename r.
Proof.
  unfold timestamps_of. destruct (format_segments _ _); [|discriminate].
  now intros [= <-].
Qed.

Lemma timestamps_of_names (rs : list FileResult) :
  forall fname, fname ∈ map ts_filename (omap timestamps_of rs) ->
                fname ∈ map filename rs.
Proof.
  induction rs as [|r rs IH]; intros fname; [now cbn|].
  cbn [omap list_omap map].
  destruct (timestamps_of r) as [t|] eqn:Ht; cbn [map].
  - rewrite (timestamps_of_filename r t Ht), !elem_of_cons.
    intros [->|H]; [now left | right; now apply IH].
  - rewrite elem_of_cons. intros H. right. now apply IH.
Qed.

Lemma find_own_timestamps (rs : list FileResult) (r : FileResult) :
  NoDup (map filename rs) -> r ∈ rs ->
  find_timestamps (omap timestamps_of rs) (filename r) = timestamps_of r.
Proof.
  induction rs as [|r0 rs IH]; intros Hnd Hin; [now apply elem_of_nil in Hin|].
  cbn [map] in Hnd. apply NoDup_cons in Hnd. destruct Hnd as [Hfresh Hnd].
  cbn [omap list_omap].
  apply elem_of_cons in Hin. destruct Hin as [->|Hin].
  - destruct (timestamps_of r0) as [t|] eqn:Ht.
    + cbn [find_timestamps].
      now rewrite (timestamps_of_filename r0 t Ht), String.eqb_refl.
    + apply find_timestamps_absent. intros H. apply Hfresh.
      now apply timestamps_of_names.
  - assert (Hne : filename r0 <> filename r).
    { intros E. apply Hfresh. rewrite E.
      clear -Hin. induction Hin; cbn [map]; [left | now right]. }
    destruct (timestamps_of r0) as [t|] eqn:Ht; [|now apply IH].
    cbn [find_timestamps]. rewrite (timestamps_of_filename r0 t Ht).
    destruct (String.eqb_spec (filename r0) (filename r)); [congruence|].
    now apply IH.
Qed.

(** When the uploaded names are all different and the loop ends, the tab
    of every result finds the timestamps of that very result, or none when
    its segments could not be formatted. *)
Theorem tab_finds_own_timestamps (W : World) (model : Provider.ModelHandle)
    (language_option : string) (files : list UploadedFile)
    (disk : gmap string string) (st : State) (r : FileResult) :
  process_files W model language_option files (initial disk) = Continue st ->
  NoDup (map name files) ->
  r ∈ all_results st ->
  find_timestamps (all_timestamps st) (filename r) = timestamps_of r.
Proof.
  intros Hrun Hnd Hin.
  pose proof (process_files_timestamps W model language_option files
                (initial disk) eq_refl) as Hts.
  rewrite Hrun in Hts. rewrite Hts.
  apply find_own_timestamps; [|exact Hin].
  apply (sublist_NoDup _ (map name files)); [exact Hnd|].
  rewrite (process_files_results W model language_option _ _ _ Hrun).
  apply omap_names.
Qed.

Lemma find_uploaded_some (files : list UploadedFile) (fname : string) :
  fname ∈ map name files ->
  exists f, find_uploaded files fname = Some f /\ name f = fname.
Proof.
  induction files as [|f files IH]; intros H; [now apply elem_of_nil in H|].
  cbn [find_uploaded].
  destruct (String.eqb_spec (name f) fname) as [E|Hne]; [now exists f|].
  cbn [map] in H. apply elem_of_cons in H.
  destruct H as [E|H]; [congruence | now apply IH].
Qed.

(** When the loop ends, the tab of every result finds an uploaded file of
    that name to play. *)
Theorem tab_finds_audio (W : World) (model : Provider.ModelHandle)
    (language_option : string) (files : list UploadedFile)
    (disk : gmap string string) (st : State) (r : FileResult) :
  process_files W model language_option files (initial disk) = Continue st ->
  r ∈ all_results st ->
  exists f, find_uploaded files (filename r) = Some f /\ name f = filename r.
Proof.
  intros Hrun Hin. apply find_uploaded_some.
  apply (elem_of_sublist (map filename (all_results st))).
  - clear -Hin. induction Hin; cbn [map]; [left | now right].
  - rewrite (process_files_results W model language_option _ _ _ Hrun).
    apply omap_names.
Qed.

(** The combined timestamp text is the concatenation, in result order, of
    one block per result, where a result without an entry of its name in
    [all_timestamps] contributes nothing, not even a header. *)
Theorem combined_timestamps_export (all_timestamps : list TimestampEntry)
    (results : list FileResult) (acc acc' : string) :
  snd (combine all_timestamps results acc acc')
  = acc' +:+ Elapsed.concat_lines (map (timestamps_block all_timestamps) results).
Proof.
  revert acc acc'. induction results as [|r results IH]; intros acc acc'.
  - cbn [combine map Elapsed.concat_lines snd]. now rewrite append_nil_r.
  - cbn [combine map Elapsed.concat_lines]. rewrite IH.
    unfold timestamps_block.
    destruct (find_timestamps all_timestamps (filename r)).
    + now rewrite !append_assoc.
    + now rewrite append_empty_l.
Qed.

End PresenterFacts.

(** ** The probe and the provider *)

Section ProbeMore.

Import Probe.

(** The probe reports success exactly when the primary command returned
    zero, or when the fallback succeeded in a process whose [PATH] is
    set. *)
Theorem check_ffmpeg_true_iff (H : Host) (environ : gmap string string) :
  fst (check_ffmpeg H environ) = true
  <-> run_version H "ffmpeg" = Ok 0 \/
      (fallback_succeeds H /\ is_Some (environ !! "PATH")).
Proof.
  unfold check_ffmpeg, fallback_succeeds.
  destruct (run_version H "ffmpeg") as [rc|e] eqn:Hrun.
  - destruct (Z.eqb_spec rc 0) as [->|Hrc].
    + split; [now left | reflexivity].
    + destruct (path_exists H chocolatey_path) eqn:Hex.
      * destruct (run_version H chocolatey_path) as [rc'|e'] eqn:Hver.
        -- destruct (Z.eqb_spec rc' 0) as [->|Hrc'].
           ++ destruct (environ !! "PATH") as [path|] eqn:HP; cbn [fst]; split.
              ** intros _. right. repeat split; eauto.
              ** reflexivity.
              ** discriminate.
              ** intros [[=]|[_ [x [=]]]]. congruence.
           ++ cbn [fst]. split; [discriminate|].
              intros [[=]|[(_ & _ & [=]) _]]; congruence.
        -- cbn [fst]. split; [discriminate|].
           intros [[=]|[(_ & _ & [=]) _]]; congruence.
      * cbn [fst]. split; [discriminate|].
        intros [[=]|[(_ & [=] & _) _]]; congruence.
  - cbn [fst]. split; [discriminate|].
    intros [[=]|[([rc [[=] _]] & _) _]].
Qed.

(** The probe touches no variable other than [PATH], and a probe that
    reports failure leaves the whole environment as it was. *)
Theorem check_ffmpeg_frame_other (H : Host) (environ : gmap string string) :
  (forall k, k <> "PATH" ->
     snd (check_ffmpeg H environ) !! k = environ !! k) /\
  (fst (check_ffmpeg H environ) = false ->
     snd (check_ffmpeg H environ) = environ).
Proof.
  unfold check_ffmpeg.
  destruct (run_version H "ffmpeg") as [rc|e]; [|now split].
  destruct (rc =? 0); [now split|].
  destruct (path_exists H chocolatey_path); [|now split].
  destruct (run_version H chocolatey_path) as [rc'|e']; [|now split].
  destruct (rc' =? 0); [|now split].
  destruct (environ !! "PATH") as [path|]; [|now split].
  cbn [fst snd]. split; [|discriminate].
  intros k Hk. now apply lookup_insert_ne.
Qed.

End ProbeMore.

Section ProviderMore.

Import Provider.

Variable R : Runtime.

(** A load that fails is not cached: the call leaves the entries as they
    were and counts one load, and the next call with the same identifier,
    whatever the host has become, runs the load again: it counts one more
    load, and when that load goes through it returns and stores a handle
    of its own. *)
Theorem failed_load_is_retried (R' : Runtime) (model_name : string)
    (c c1 : Cache) (e : Exn) :
  load_whisper_model R model_name c = (Raise e, c1) ->
  entries c1 = entries c /\ loads c1 = S (loads c) /\
  loads (snd (load_whisper_model R' model_name c1)) = S (S (loads c)) /\
  (load_error R' model_name (if cuda_is_available R' then "cuda" else "cpu")
   = None ->
   load_whisper_model R' model_name c1
   = (Ok {| handle_id := S (loads c); handle_name := model_name;
            handle_device := if cuda_is_available R' then "cuda" else "cpu" |},
      {| entries :=
           <[model_name :=
               {| handle_id := S (loads c); handle_name := model_name;
                  handle_device :=
                    if cuda_is_available R' then "cuda" else "cpu" |}]>
             (entries c);
         loads := S (S (loads c)) |})).
Proof.
  unfold load_whisper_model at 1.
  destruct (entries c !! model_name) as [h|] eqn:Hc; [discriminate|].
  destruct (load_whisper_model_body R model_name (loads c)) as [h|e'];
    [discriminate|].
  intros [= <- <-]. cbn [entries loads].
  split; [reflexivity|]. split; [reflexivity|].
  unfold load_whisper_model, load_whisper_model_body. cbn [entries loads].
  rewrite Hc. split.
  - now destruct (load_error R' model_name _).
  - now intros ->.
Qed.

(** What every cache reached from the empty one satisfies: a handle is
    stored under the identifier it was loaded for, its number is below the
    load count, and no number is stored under two identifiers. *)
Lemma calls_invariant (names : list string) (c : Cache) :
  (forall n h, entries c !! n = Some h ->
     handle_name h = n /\ (handle_id h < loads c)%nat) ->
  (forall n1 n2 h1 h2, entries c !! n1 = Some h1 -> entries c !! n2 = Some h2 ->
     handle_id h1 = handle_id h2 -> n1 = n2) ->
  (forall n h, entries (calls R names c) !! n = Some h ->
     handle_name h = n /\ (handle_id h < loads (calls R names c))%nat) /\
  (forall n1 n2 h1 h2,
     entries (calls R names c) !! n1 = Some h1 ->
     entries (calls R names c) !! n2 = Some h2 ->
     handle_id h1 = handle_id h2 -> n1 = n2).
Proof.
  revert c. induction names as [|m names IH]; intros c Hc Hu; [now split|].
  cbn [calls]. unfold load_whisper_model.
  destruct (entries c !! m) as [h0|] eqn:Hm; [now apply IH|].
  unfold load_whisper_model_body.
  destruct (load_error R m _); cbn [snd]; apply IH; cbn [entries loads];
    clear IH.
  - intros n h Hn. destruct (Hc n h Hn). split; [assumption | lia].
  - exact Hu.
  - intros n h Hn. destruct (decide (m = n)) as [->|Hne].
    + rewrite lookup_insert_eq in Hn. injection Hn as <-.
      cbn [handle_name handle_id]. split; [reflexivity | lia].
    + rewrite lookup_insert_ne in Hn by exact Hne.
      destruct (Hc n h Hn). split; [assumption | lia].
  - intros n1 n2 h1 h2 H1 H2 Hid.
    destruct (decide (m = n1)) as [->|Hne1];
      destruct (decide (n1 = n2)) as [->|Hne2]; try reflexivity.
    + exfalso. rewrite lookup_insert_eq in H1. injection H1 as <-.
      rewrite lookup_insert_ne in H2 by exact Hne2.
      destruct (Hc n2 h2 H2) as [_ Hlt]. cbn [handle_id] in Hid. lia.
    + exfalso. rewrite lookup_insert_ne in H1 by exact Hne1.
      destruct (decide (m = n2)) as [->|Hne3].
      * rewrite lookup_insert_eq in H2. injection H2 as <-.
        destruct (Hc n1 h1 H1) as [_ Hlt]. cbn [handle_id] in Hid. lia.
      * rewrite lookup_insert_ne in H2 by exact Hne3.
        apply Hne2. exact (Hu n1 n2 h1 h2 H1 H2 Hid).
Qed.

(** In a process that starts with an empty cache, the handle cached for an
    identifier is a model of that identifier, and two identifiers never
    hold the same model object: equal load numbers mean the same
    identifier. *)
Theorem cached_handles_distinct (names : list string) (n1 n2 : string)
    (h1 h2 : ModelHandle) :
  entries (calls R names empty_cache) !! n1 = Some h1 ->
  entries (calls R names empty_cache) !! n2 = Some h2 ->
  handle_name h1 = n1 /\ (handle_id h1 = handle_id h2 -> n1 = n2).
Proof.
  intros E1 E2.
  destruct (calls_invariant names empty_cache) as [Hn Hu].
  - intros n h. cbn. now rewrite lookup_empty.
  - intros n n' h h'. cbn. now rewrite lookup_empty.
  - split; [exact (proj1 (Hn n1 h1 E1)) | exact (Hu n1 n2 h1 h2 E1 E2)].
Qed.

(** A call makes at most one load, so a sequence of calls makes at most as
    many loads as it has calls. *)
Theorem loads_bounded (names : list string) (c : Cache) :
  (loads c <= loads (calls R names c) <= loads c + List.length names)%nat.
Proof.
  revert c. induction names as [|m names IH]; intros c; [cbn; lia|].
  cbn [calls List.length]. specialize (IH (snd (load_whisper_model R m c))).
  assert (loads c <= loads (snd (load_whisper_model R m c)) <= S (loads c))%nat.
  { unfold load_whisper_model.
    destruct (entries c !! m); [cbn; lia|].
    destruct (load_whisper_model_body R m (loads c)); cbn; lia. }
  lia.
Qed.

End ProviderMore.

(** ** The further properties on the example host *)

Section MoreExamples.

Import Batch Expected Download Scenario Runs Presenter Provider Vocabulary.

Lemma loop_restores_disk_witness :
  process_files world base_handle "" three_files (initial ∅)
  = Continue after_three /\
  fs after_three = ∅.
Proof.
  assert (Hrun : process_files world base_handle "" three_files (initial ∅)
                 = Continue after_three) by (vm_compute; reflexivity).
  split; [exact Hrun|].
  exact (loop_restores_disk world base_handle "" three_files (initial ∅)
           after_three Hrun).
Defined.

Lemma persist_keeps_disk_witness :
  fst (persist world ∅ a_mp3) = Ok "/tmp/tmpx.mp3" /\
  snd (persist world ∅ a_mp3) !! "/tmp/tmpx.mp3" = Some "Hello".
Proof.
  split; [reflexivity|].
  exact (proj2 (proj2 (persist_keeps_disk world ∅ a_mp3)
                  "/tmp/tmpx.mp3" eq_refl)).
Defined.

Lemma process_file_reports_witness :
  process_file world base_handle "" (initial ∅) bad_ogg
  = Continue (st_error (initial ∅) "bad.ogg"
                (Exception "Invalid data found when processing input")) /\
  ((exists txt,
      all_timestamps (st_error (initial ∅) "bad.ogg"
          (Exception "Invalid data found when processing input"))
      = all_timestamps (initial ∅)
        ++ [{| ts_filename := name bad_ogg; timestamp_text := txt |}] /\
      errors (st_error (initial ∅) "bad.ogg"
          (Exception "Invalid data found when processing input"))
      = errors (initial ∅)) \/
   (exists e,
      all_timestamps (st_error (initial ∅) "bad.ogg"
          (Exception "Invalid data found when processing input"))
      = all_timestamps (initial ∅) /\
      errors (st_error (initial ∅) "bad.ogg"
          (Exception "Invalid data found when processing input"))
      = errors (initial ∅) ++ [(name bad_ogg, str_exn e)])).
Proof.
  split; [reflexivity|].
  exact (process_file_reports world base_handle "" (initial ∅) _ bad_ogg
           eq_refl).
Defined.

Lemma every_file_reported_witness :
  process_files world base_handle "" three_files (initial ∅)
  = Continue after_three /\
  (List.length (all_timestamps after_three)
   + List.length (errors after_three))%nat = 3%nat.
Proof.
  assert (Hrun : process_files world base_handle "" three_files (initial ∅)
                 = Continue after_three) by (vm_compute; reflexivity).
  split; [exact Hrun|].
  exact (every_file_reported world base_handle "" three_files ∅
           after_three Hrun).
Defined.

Lemma three_files_distinct : NoDup (map name three_files).
Proof.
  repeat (apply NoDup_cons; split;
          [rewrite ?not_elem_of_cons; repeat split;
           try discriminate; apply not_elem_of_nil|]).
  apply NoDup_nil. exact I.
Defined.

Lemma b_result_in : b_result ∈ all_results after_three.
Proof. right. left. Defined.

Lemma tab_finds_own_timestamps_witness :
  process_files world base_handle "" three_files (initial ∅)
  = Continue after_three /\
  NoDup (map name three_files) /\
  b_result ∈ all_results after_three /\
  find_timestamps (all_timestamps after_three) "b.wav"
  = timestamps_of b_result.
Proof.
  assert (Hrun : process_files world base_handle "" three_files (initial ∅)
                 = Continue after_three) by (vm_compute; reflexivity).
  split; [exact Hrun|]. split; [exact three_files_distinct|].
  split; [exact b_result_in|].
  exact (tab_finds_own_timestamps world base_handle "" three_files ∅
           after_three b_result Hrun three_files_distinct b_result_in).
Defined.

Lemma tab_finds_audio_witness :
  process_files world base_handle "" three_files (initial ∅)
  = Continue after_three /\
  b_result ∈ all_results after_three /\
  exists f, find_uploaded three_files "b.wav" = Some f /\ name f = "b.wav".
Proof.
  assert (Hrun : process_files world base_handle "" three_files (initial ∅)
                 = Continue after_three) by (vm_compute; reflexivity).
  split; [exact Hrun|]. split; [exact b_result_in|].
  exact (tab_finds_audio world base_handle "" three_files ∅
           after_three b_result Hrun b_result_in).
Defined.

Lemma failed_load_is_retried_witness :
  load_whisper_model runtime_offline "base" empty_cache
  = (Raise (Exception "download failed"), {| entries := ∅; loads := 1 |}) /\
  load_error runtime_cpu "base"
    (if cuda_is_available runtime_cpu then "cuda" else "cpu") = None /\
  fst (load_whisper_model runtime_cpu "base" {| entries := ∅; loads := 1 |})
  = Ok {| handle_id := 1; handle_name := "base"; handle_device := "cpu" |} /\
  loads (snd (load_whisper_model runtime_cpu "base"
                {| entries := ∅; loads := 1 |})) = 2%nat.
Proof.
  split; [reflexivity|]. split; [reflexivity|].
  destruct (failed_load_is_retried runtime_offline runtime_cpu "base"
              empty_cache {| entries := ∅; loads := 1 |} _ eq_refl)
    as (_ & _ & Hloads & Hok).
  split; [exact (f_equal fst (Hok eq_refl)) | exact Hloads].
Defined.

Lemma cached_handles_distinct_witness :
  entries (calls runtime_cpu ["base"; "tiny"; "base"] empty_cache) !! "base"
  = Some base_handle /\
  entries (calls runtime_cpu ["base"; "tiny"; "base"] empty_cache) !! "tiny"
  = Some {| handle_id := 1; handle_name := "tiny"; handle_device := "cpu" |} /\
  handle_name base_handle = "base".
Proof.
  split; [reflexivity|]. split; [reflexivity|].
  exact (proj1 (cached_handles_distinct runtime_cpu ["base"; "tiny"; "base"]
                  "base" "tiny" base_handle _ eq_refl eq_refl)).
Defined.

Lemma check_ffmpeg_frame_other_witness :
  "TEMP" <> "PATH" /\
  snd (Probe.check_ffmpeg Probe.host_chocolatey
         (<["TEMP" := "C:\Temp"]> Probe.environ_example)) !! "TEMP"
  = Some "C:\Temp".
Proof.
  assert (Hne : "TEMP" <> "PATH") by discriminate.
  split; [exact Hne|].
  rewrite (proj1 (check_ffmpeg_frame_other Probe.host_chocolatey
                    (<["TEMP" := "C:\Temp"]> Probe.environ_example))
             "TEMP" Hne).
  reflexivity.
Defined.

Lemma world_near_in_range :
  forall m d q o elapsed result,
    transcribe world_near m d q o = Ok (elapsed, result) ->
    forallb Elapsed.formattable_segment (res_segments result) = true.
Proof.
  intros m d q o elapsed result. cbn [transcribe world_near].
  destruct (d !! q) as [content|]; [|discriminate].
  destruct (String.eqb content "corrupt"); [discriminate|].
  intros [= _ <-]. reflexivity.
Defined.

Lemma result_lists_parallel_witness :
  process_files world_near base_handle "" three_files (initial ∅)
  = Continue after_three_near /\
  List.length (all_results after_three_near)
  = List.length (all_timestamps after_three_near) /\
  map filename (all_results after_three_near) = ["a.mp3"; "b.wav"] /\
  map ts_filename (all_timestamps after_three_near) = ["a.mp3"; "b.wav"].
Proof.
  assert (Hrun : process_files world_near base_handle "" three_files (initial ∅)
                 = Continue after_three_near) by (vm_compute; reflexivity).
  split; [exact Hrun|].
  destruct (result_lists_parallel world_near base_handle "" three_files ∅
              after_three_near world_near_in_range Hrun) as (Hlen & Hnames & _).
  split; [exact Hlen|].
  rewrite <- Hnames. split; vm_compute; reflexivity.
Defined.

End MoreExamples.
